(** * Sortable admin lists of django-suit: a shallow embedding of suit/admin.py

    The development follows the layout of the Python module:
    - [Py]: the fragment of Python the module relies on (values, truthiness,
      exceptions, [try]/[except], list methods);
    - [Admin]: [SortableChangeList], [SortableStackedInlineBase] and
      [SortableModelAdmin], function by function;
    - [Persister]: the reorder batches of the specification, which have
      no counterpart in the Python sources;
    - the properties, one section per class. *)

From Stdlib Require Import Ascii.
From stdpp Require Import base numbers option list strings gmap sorting.

Local Open Scope Z_scope.

(* ===================================================================== *)
(** ** Python fragment *)
(* ===================================================================== *)

Module Py.

(** Exceptions raised by the modelled statements. *)
Inductive exn := TypeError | KeyError | AssertionError.

Global Instance exn_eq_dec : EqDecision exn.
Proof. solve_decision. Defined.

(** A statement either completes with a value or raises. *)
Inductive result (A : Type) :=
  | Return (a : A)
  | Raise (e : exn).
Global Arguments Return {A} a.
Global Arguments Raise {A} e.

Global Instance result_ret : MRet result := λ A a, Return a.

Global Instance result_bind : MBind result := λ A B k m,
  match m with
  | Return a => k a
  | Raise e => Raise e
  end.

(** [try: body except e: handler]; other exceptions propagate. *)
Definition try_except {A} (body : result A) (e : exn) (handler : result A)
  : result A :=
  match body with
  | Return a => Return a
  | Raise e' => if decide (e' = e) then handler else Raise e'
  end.

(** Scalar values: [None], integers, strings. *)
Inductive value :=
  | PyNone
  | PyInt (z : Z)
  | PyStr (s : string).

Global Instance value_eq_dec : EqDecision value.
Proof. solve_decision. Defined.

(** [bool(v)]: [None], [0] and the empty string are falsy. *)
Definition truthy (v : value) : bool :=
  match v with
  | PyNone => false
  | PyInt z => negb (z =? 0)
  | PyStr s => negb (bool_decide (s = ""))
  end.

(** [v + w]: defined on two integers and on two strings. *)
Definition add (v w : value) : result value :=
  match v, w with
  | PyInt a, PyInt b => Return (PyInt (a + b))
  | PyStr a, PyStr b => Return (PyStr (a +:+ b))
  | _, _ => Raise TypeError
  end.

(** [d[k]] on a dict with string keys. *)
Definition getitem {V} (d : gmap string V) (k : string) : result V :=
  match d !! k with
  | Some v => Return v
  | None => Raise KeyError
  end.

(** Sequence-valued options of an admin class: unset ([None]), a tuple or
    a list of names. *)
Inductive pyseq :=
  | SeqNone
  | SeqTuple (xs : list string)
  | SeqList (xs : list string).

Definition items (s : pyseq) : list string :=
  match s with
  | SeqNone => []
  | SeqTuple xs | SeqList xs => xs
  end.

Definition seq_truthy (s : pyseq) : bool :=
  match s with
  | SeqNone => false
  | SeqTuple xs | SeqList xs => negb (bool_decide (xs = []))
  end.

(** [x in s]; [None] is not iterable. *)
Definition contains (x : string) (s : pyseq) : result bool :=
  match s with
  | SeqNone => Raise TypeError
  | SeqTuple xs | SeqList xs => Return (bool_decide (x ∈ xs))
  end.

(** [list(s)]. *)
Definition to_list (s : pyseq) : result (list string) :=
  match s with
  | SeqNone => Raise TypeError
  | SeqTuple xs | SeqList xs => Return xs
  end.

(** [s or []]. *)
Definition or_empty (s : pyseq) : pyseq :=
  if seq_truthy s then s else SeqList [].

(** [l.remove(x)] when [x in l]: the first element equal to [x] goes. *)
Fixpoint remove_first {A} `{EqDecision A} (x : A) (l : list A) : list A :=
  match l with
  | [] => []
  | y :: l' => if decide (y = x) then l' else y :: remove_first x l'
  end.

(** Number of elements of [l] equal to [x]. *)
Definition count {A} `{EqDecision A} (x : A) (l : list A) : nat :=
  length (filter (λ y, y = x) l).

End Py.

(* ===================================================================== *)
(** ** suit/admin.py *)
(* ===================================================================== *)

Module Admin.
Import Py.

(** *** Configuration of the admin classes *)

(** [model._meta]: only the name of the primary key is read. *)
Record Model := { pk_name : string }.

(** The attributes of a [SortableModelAdmin] that [__init__] touches.
    [sortable] is the class attribute of [SortableModelAdminBase]
    (["order"] unless a subclass overrides it). *)
Record SortableModelAdmin := {
  sortable : string;
  ordering : pyseq;
  list_display : pyseq;
  list_editable : pyseq;
  exclude : pyseq;
}.

(** Attribute assignments [self.<attribute> = v]. *)
Definition set_ordering (v : pyseq) (self : SortableModelAdmin) :=
  {| sortable := sortable self; ordering := v;
     list_display := list_display self;
     list_editable := list_editable self; exclude := exclude self |}.

Definition set_list_display (v : pyseq) (self : SortableModelAdmin) :=
  {| sortable := sortable self; ordering := ordering self;
     list_display := v;
     list_editable := list_editable self; exclude := exclude self |}.

Definition set_list_editable (v : pyseq) (self : SortableModelAdmin) :=
  {| sortable := sortable self; ordering := ordering self;
     list_display := list_display self;
     list_editable := v; exclude := exclude self |}.

Definition set_exclude (v : pyseq) (self : SortableModelAdmin) :=
  {| sortable := sortable self; ordering := ordering self;
     list_display := list_display self;
     list_editable := list_editable self; exclude := v |}.

(** A change list knows its admin and its model. *)
Record SortableChangeList := {
  model_admin : SortableModelAdmin;
  model : Model;
}.

(** *** SortableChangeList.get_ordering *)

Section ChangeList.
Context {Request QuerySet : Type}.

Definition get_ordering (self : SortableChangeList)
    (request : Request) (queryset : QuerySet) : list string :=
  [sortable (model_admin self); "-" +:+ pk_name (model self)].

End ChangeList.

(** How the host reads one term of an ordering: a leading ["-"] asks for
    descending order on the rest of the term. *)
Inductive direction := Asc | Desc.

Global Instance direction_eq_dec : EqDecision direction.
Proof. solve_decision. Defined.

Definition order_term (term : string) : direction * string :=
  match term with
  | String "-"%char field => (Desc, field)
  | _ => (Asc, term)
  end.

(** *** SortableModelAdmin.__init__

    [self] is the instance as [ModelAdmin.__init__] leaves it. *)

Definition append_sortable (self : SortableModelAdmin) (s : pyseq)
  : result pyseq :=
  xs ← to_list s; mret (SeqList (xs ++ [sortable self])).

Definition __init__ (self : SortableModelAdmin) : result SortableModelAdmin :=
  let self := set_ordering (SeqTuple [sortable self]) self in
  self ←
    (if seq_truthy (list_display self) then
       present ← contains (sortable self) (list_display self);
       if negb present then
         l ← append_sortable self (list_display self);
         mret (set_list_display l self)
       else mret self
     else mret self);
  let self := set_list_editable (or_empty (list_editable self)) self in
  present ← contains (sortable self) (list_editable self);
  self ←
    (if negb present then
       l ← append_sortable self (list_editable self);
       mret (set_list_editable l self)
     else mret self);
  let self := set_exclude (or_empty (exclude self)) self in
  present ← contains (sortable self) (exclude self);
  if negb present then
    l ← append_sortable self (exclude self);
    mret (set_exclude l self)
  else mret self.

(** *** SortableModelAdmin.save_model *)

(** A model instance: its primary key and its other attributes by name. *)
Record Instance := {
  pk : value;
  attrs : gmap string value;
}.

(** [setattr(obj, name, v)] for an attribute other than the key. *)
Definition setattr (obj : Instance) (name : string) (v : value) : Instance :=
  {| pk := pk obj; attrs := <[name := v]> (attrs obj) |}.

(** A stored row of [obj.__class__.objects]: its key and its value in the
    sortable column, an integer or NULL. *)
Record StoredRow := {
  row_pk : Z;
  row_order : option Z;
}.

(** [objects.aggregate(models.Max(field))]: a dict with the single key
    [field__max]; NULLs are skipped, and the maximum of no value at all is
    [None]. *)
Definition column_max (objects : list StoredRow) : value :=
  match omap row_order objects with
  | [] => PyNone
  | o :: os => PyInt (foldr Z.max o os)
  end.

Definition aggregate_Max (field : string) (objects : list StoredRow)
  : gmap string value :=
  {[ field +:+ "__max" := column_max objects ]}.

(** The [try] block of [save_model]:
    [max_order["%s__max" % self.sortable] + 1], or [1] on [TypeError]. *)
Definition next_order (self : SortableModelAdmin)
    (max_order : gmap string value) : result value :=
  try_except
    (m ← getitem max_order (sortable self +:+ "__max"); add m (PyInt 1))
    TypeError
    (Return (PyInt 1)).

Section SaveModel.
Context {Request Form World : Type}.

(** [ModelAdmin.save_model] of the host, which stores [obj]. *)
Variable ModelAdmin_save_model :
  Request → Instance → Form → bool → list StoredRow → result World.

Definition save_model (self : SortableModelAdmin) (request : Request)
    (obj : Instance) (form : Form) (change : bool)
    (objects : list StoredRow) : result World :=
  obj ←
    (if negb (truthy (pk obj)) then
       let max_order := aggregate_Max (sortable self) objects in
       next_order ← next_order self max_order;
       mret (setattr obj (sortable self) next_order)
     else mret obj);
  ModelAdmin_save_model request obj form change objects.

End SaveModel.

(** *** SortableStackedInlineBase.get_fieldsets *)

(** An entry of a [fields] option: a field name, or a tuple of names shown
    on one line. *)
Inductive item :=
  | Field (name : string)
  | FieldRow (names : list string).

Global Instance item_eq_dec : EqDecision item.
Proof. solve_decision. Defined.

(** Lists are mutable objects: a [fields] list is held by reference, and
    the store gives the current content of every list object (the empty
    list where nothing was put). *)
Abbreviation loc := positive.
Abbreviation store := (gmap positive (list item)).

(** Values of a fieldset's option dict. *)
Inductive optval :=
  | VNone
  | VTuple (t : list item)
  | VList (l : loc).

(** Elements of a fieldset: its name ([None] or a string) and its option
    dict. *)
Inductive line :=
  | LineNone
  | LineStr (s : string)
  | LineDict (d : gmap string optval).

Definition is_dict (ln : line) : bool :=
  match ln with LineDict _ => true | _ => false end.

(** [bool(line)]. *)
Definition line_truthy (ln : line) : bool :=
  match ln with
  | LineNone => false
  | LineStr s => negb (bool_decide (s = ""))
  | LineDict d => negb (bool_decide (d = ∅))
  end.

Section StackedInline.
Variable self_sortable : string.

(** The body of the inner loop for a non-empty dict [d], from
    [fields = line.get("fields")] on.  The result is the store, the flag
    [sortable_added] and whether [break] was reached. *)
Definition visit_line (d : gmap string optval) (σ : store)
    (sortable_added : bool) : result (store * bool * bool) :=
  match default VNone (d !! "fields") with
  | VTuple _ => Raise AssertionError
  | VNone => Raise TypeError
  | VList l =>
      let σ :=
        if bool_decide (Field self_sortable ∈ σ !!! l)
        then <[l := remove_first (Field self_sortable) (σ !!! l)]> σ
        else σ in
      if negb sortable_added
      then Return (<[l := Field self_sortable :: σ !!! l]> σ, true, true)
      else Return (σ, sortable_added, false)
  end.

(** [for line in fieldset]. An exception leaves the store as it is at
    that point. *)
Fixpoint for_line (fieldset : list line) (σ : store) (sortable_added : bool)
  : store * result bool :=
  match fieldset with
  | [] => (σ, Return sortable_added)
  | ln :: rest =>
      if negb (line_truthy ln) || negb (is_dict ln)
      then for_line rest σ sortable_added
      else
        match ln with
        | LineDict d =>
            match visit_line d σ sortable_added with
            | Raise e => (σ, Raise e)
            | Return (σ', added, break) =>
                if break then (σ', Return added) else for_line rest σ' added
            end
        | _ => for_line rest σ sortable_added
        end
  end.

(** [for fieldset in fieldsets]. *)
Fixpoint for_fieldset (fieldsets : list (list line)) (σ : store)
    (sortable_added : bool) : store * result bool :=
  match fieldsets with
  | [] => (σ, Return sortable_added)
  | fieldset :: rest =>
      match for_line fieldset σ sortable_added with
      | (σ', Return added) => for_fieldset rest σ' added
      | (σ', Raise e) => (σ', Raise e)
      end
  end.

(** [fieldsets] is what the host's [get_fieldsets] returned; the same
    object is returned, read through the updated store. *)
Definition get_fieldsets (fieldsets : list (list line)) (σ : store)
  : store * result (list (list line)) :=
  let sortable_added := false in
  match for_fieldset fieldsets σ sortable_added with
  | (σ', Return _) => (σ', Return fieldsets)
  | (σ', Raise e) => (σ', Raise e)
  end.

End StackedInline.

(** What a reader of the fieldsets sees. *)
Definition shown_fields (σ : store) (ln : line) : list item :=
  match ln with
  | LineDict d =>
      match default VNone (d !! "fields") with
      | VNone => []
      | VTuple t => t
      | VList l => σ !!! l
      end
  | _ => []
  end.

(** The field names a grouping shows, rows flattened. *)
Definition item_names (i : item) : list string :=
  match i with
  | Field name => [name]
  | FieldRow names => names
  end.

Definition grouping_names (σ : store) (fieldset : list line) : list string :=
  ln ← fieldset; i ← shown_fields σ ln; item_names i.

End Admin.

(* ===================================================================== *)
(** ** Reorder batches *)
(* ===================================================================== *)

Module Persister.
Import Py Admin.

(** Modelled from the spec: the stored part of an OrderedRecord, missing
    from the Python sources: its grouping key and its order, which may be
    unset. The store maps each identifier to its record. *)
Record OrderedRecord := {
  scope : Z;
  order : option Z;
}.

Abbreviation storage := (gmap Z OrderedRecord).

(** Modelled from the spec: a ReorderBatch, missing from the Python
    sources: a sequence of pairs (identifier, new order). *)
Abbreviation ReorderBatch := (list (Z * Z)).

(** Modelled from the spec: the results of OrderPersister.apply, missing
    from the Python sources. The store is held in memory, so that no
    storage failure arises. *)
Inductive outcome := Success | ValidationError.

(** Modelled from the spec: the validation of OrderPersister.apply,
    missing from the Python sources: every identifier of the batch exists
    and all of them share one scope. *)
Definition validates (st : storage) (batch : ReorderBatch) : bool :=
  match batch with
  | [] => true
  | first :: _ =>
      match st !! first.1 with
      | None => false
      | Some r0 =>
          forallb
            (λ p, match st !! p.1 with
                  | Some r => bool_decide (scope r = scope r0)
                  | None => false
                  end)
            batch
      end
  end.

(** Modelled from the spec: one write of OrderPersister.apply, missing
    from the Python sources: the record of the identifier takes the new
    order. *)
Definition set_order (new_order : Z) (r : OrderedRecord) : OrderedRecord :=
  {| scope := scope r; order := Some new_order |}.

Definition write (st : storage) (p : Z * Z) : storage :=
  alter (set_order p.2) p.1 st.

(** Modelled from the spec: OrderPersister.apply, missing from the Python
    sources: a batch that does not validate fails with ValidationError and
    writes nothing; otherwise its pairs are written in sequence. *)
Definition apply (batch : ReorderBatch) (st : storage) : outcome * storage :=
  if validates st batch
  then (Success, foldl write st batch)
  else (ValidationError, st).

(** Modelled from the spec: the new order a batch leaves on each of its
    identifiers (a later pair overrides an earlier one), and the sequence
    the batch asks for: its identifiers by new order, equal orders by
    descending identifier. *)
Definition assignment (batch : ReorderBatch) : gmap Z Z :=
  foldl (λ m p, <[p.1 := p.2]> m) ∅ batch.

Definition batch_le (p q : Z * Z) : Prop :=
  p.2 < q.2 ∨ (p.2 = q.2 ∧ q.1 ≤ p.1).

Global Instance batch_le_dec : RelDecision batch_le.
Proof. intros p q. unfold batch_le. apply _. Defined.

Definition batch_sequence (batch : ReorderBatch) : list Z :=
  (merge_sort batch_le (map_to_list (assignment batch))).*1.

Section OrderedView.
Context {Request QuerySet : Type}.
Variables (self : SortableChangeList) (request : Request)
  (queryset : QuerySet).

(** Where the storage places unset orders among the others is its own
    choice. *)
Variable nulls_first : bool.

(** Modelled from the spec: the scoped ordered read of the storage
    collaborator, missing from the Python sources. A row is an identifier
    with its record; the columns are the key and the order field, and an
    ordering compares rows term by term. *)
Definition column (name : string) (row : Z * OrderedRecord) : option Z :=
  if decide (name = pk_name (model self)) then Some row.1
  else if decide (name = sortable (model_admin self)) then order row.2
  else None.

Definition compare_nullable (a b : option Z) : comparison :=
  match a, b with
  | None, None => Eq
  | None, Some _ => if nulls_first then Lt else Gt
  | Some _, None => if nulls_first then Gt else Lt
  | Some m, Some n => m ?= n
  end.

Definition compare_term (term : direction * string)
    (row1 row2 : Z * OrderedRecord) : comparison :=
  let c := compare_nullable (column term.2 row1) (column term.2 row2) in
  match term.1 with
  | Asc => c
  | Desc => CompOpp c
  end.

Fixpoint compare_rows (terms : list (direction * string))
    (row1 row2 : Z * OrderedRecord) : comparison :=
  match terms with
  | [] => Eq
  | term :: terms =>
      match compare_term term row1 row2 with
      | Eq => compare_rows terms row1 row2
      | c => c
      end
  end.

Definition row_le (terms : list (direction * string))
    (row1 row2 : Z * OrderedRecord) : Prop :=
  compare_rows terms row1 row2 ≠ Gt.

Global Instance row_le_dec terms : RelDecision (row_le terms).
Proof. intros row1 row2. unfold row_le. apply _. Defined.

(** Modelled from the spec: OrderedView read over one scope, missing
    from the Python sources: the records of the scope, sorted by the
    ordering that [get_ordering] answers. *)
Definition ordered_view (st : storage) (s : Z) : list (Z * OrderedRecord) :=
  merge_sort
    (row_le (order_term <$> get_ordering self request queryset))
    (filter (λ row, scope row.2 = s) (map_to_list st)).

End OrderedView.

End Persister.

(* ===================================================================== *)
(** ** suit/admin.py: the tabular inline *)
(* ===================================================================== *)

Module Tabular.
Import Py.

(** The attributes of a [SortableTabularInlineBase] that [__init__]
    touches. *)
Record SortableTabularInlineBase := {
  sortable : string;
  ordering : pyseq;
  fields : pyseq;
}.

(** [self] is the instance as the host's [__init__] leaves it. *)
Definition __init__ (self : SortableTabularInlineBase)
  : result SortableTabularInlineBase :=
  let self :=
    {| sortable := sortable self; ordering := SeqTuple [sortable self];
       fields := fields self |} in
  let self :=
    {| sortable := sortable self; ordering := ordering self;
       fields := or_empty (fields self) |} in
  if seq_truthy (fields self) then
    present ← contains (sortable self) (fields self);
    if negb present then
      xs ← to_list (fields self);
      mret {| sortable := sortable self; ordering := ordering self;
              fields := SeqList (xs ++ [sortable self]) |}
    else mret self
  else mret self.

End Tabular.

(* ===================================================================== *)
(** ** suit/widgets.py *)
(* ===================================================================== *)

Module Widgets.
Import Py.

(** An optional dict argument ([None] or a dict) is truthy when it is a
    non-empty dict. *)
Definition dict_truthy {V} (d : option (gmap string V)) : bool :=
  match d with
  | Some m => negb (bool_decide (m = ∅))
  | None => false
  end.

(** [sep.join((a, b))]: both items must be strings. *)
Definition join_pair (sep : string) (a b : value) : result value :=
  match a, b with
  | PyStr x, PyStr y => Return (PyStr (x +:+ sep +:+ y))
  | _, _ => Raise TypeError
  end.

(** *** _make_attrs

    [result.update(attrs)] lets the entries of [attrs] win. *)
Definition _make_attrs (attrs defaults : option (gmap string value))
    (classes : value) : result (gmap string value) :=
  let result : gmap string value :=
    if dict_truthy defaults then default ∅ defaults else ∅ in
  let result :=
    if dict_truthy attrs then default ∅ attrs ∪ result else result in
  if truthy classes then
    joined ← join_pair " " classes (default (PyStr "") (result !! "class"));
    mret (<["class" := joined]> result)
  else mret result.

(** *** EnclosedInput *)

(** The double quote character, as a string. *)
Definition dq : string := String "034"%char "".

(** [prepend] and [append] are [None] or a string. *)
Record EnclosedInput := {
  prepend : option string;
  prepend_class : string;
  append : option string;
  append_class : string;
}.

Definition str_truthy (o : option string) : bool :=
  match o with
  | Some s => negb (bool_decide (s = ""))
  | None => false
  end.

Definition enclose_value (value wrapper_class : string) : string :=
  let value :=
    if String.prefix "fa-" value
    then "<i class=" +:+ dq +:+ "fa " +:+ value +:+ dq +:+ "></i>"
    else value in
  "<span class=" +:+ dq +:+ "input-group-" +:+ wrapper_class +:+ dq +:+ ">"
    +:+ value +:+ "</span>".

(** [render]: [output] is what the host's [render] answered. The widget
    comes back too, since [render] assigns to [self.prepend] and
    [self.append]. *)
Definition render (self : EnclosedInput) (output : string)
  : string * EnclosedInput :=
  let div_classes : gset string := ∅ in
  let '(self, div_classes, output) :=
    if str_truthy (prepend self) then
      let enclosed :=
        enclose_value (default "" (prepend self)) (prepend_class self) in
      ({| prepend := Some enclosed; prepend_class := prepend_class self;
          append := append self; append_class := append_class self |},
       {[ "input-group" ]} ∪ div_classes,
       enclosed +:+ output)
    else (self, div_classes, output) in
  let '(self, div_classes, output) :=
    if str_truthy (append self) then
      let enclosed :=
        enclose_value (default "" (append self)) (append_class self) in
      ({| prepend := prepend self; prepend_class := prepend_class self;
          append := Some enclosed; append_class := append_class self |},
       {[ "input-group" ]} ∪ div_classes,
       output +:+ enclosed)
    else (self, div_classes, output) in
  ("<div class=" +:+ dq +:+ String.concat " " (elements div_classes) +:+ dq
     +:+ ">" +:+ output +:+ "</div>",
   self).

End Widgets.

(* ===================================================================== *)
(** ** suit/admin.py: related fields *)
(* ===================================================================== *)

Module Related.
Import Py.

Definition link_to_prefix : string := "link_to_".

(** *** String methods on field names *)

(** [s.startswith("__")]. *)
Definition starts_dunder (s : string) : bool :=
  match s with
  | String "_" (String "_" _) => true
  | _ => false
  end.

(** ["__" in s]. *)
Fixpoint contains_dunder (s : string) : bool :=
  match s with
  | "" => false
  | String _ rest => starts_dunder s || contains_dunder rest
  end.

(** [s.split("__")]: cut at each occurrence met from the left. *)
Fixpoint split_dunder (s : string) : list string :=
  match s with
  | "" => [""]
  | String c rest =>
      if starts_dunder s then
        "" :: match rest with
              | String _ rest' => split_dunder rest'
              | "" => [""]
              end
      else
        match split_dunder rest with
        | piece :: pieces => String c piece :: pieces
        | [] => [String c ""]
        end
  end.

(** [s.rsplit("__", 1)[0]]: what stands before the last occurrence, the
    whole of [s] when there is none. *)
Fixpoint rsplit_head (s : string) : string :=
  match s with
  | "" => ""
  | String c rest =>
      if contains_dunder rest then String c (rsplit_head rest)
      else if starts_dunder s then ""
      else s
  end.

(** [s[n:]]. *)
Definition slice_from (n : nat) (s : string) : string :=
  String.substring n (String.length s - n) s.

(** [s.replace("_", " ")]. *)
Fixpoint replace_underscores (s : string) : string :=
  match s with
  | "" => ""
  | String c rest =>
      String (if decide (c = "_"%char) then " "%char else c)
        (replace_underscores rest)
  end.

(** *** Objects met along an attribute path *)

(** A scalar, which has none of the attributes asked for, or a model
    instance: its key, the two names of its [_meta], its [str()] and its
    other attributes. *)
#[local] Unset Elimination Schemes.
Inductive pyobj :=
  | Scalar (v : value)
  | ModelObj (pk : value) (app_label model_name display : string)
      (attrs : gmap string pyobj).
#[local] Set Elimination Schemes.

(** [getattr] either answers or raises [AttributeError]. *)
Inductive outcome (A : Type) :=
  | Got (a : A)
  | AttributeError.
Global Arguments Got {A} a.
Global Arguments AttributeError {A}.

Global Instance outcome_ret : MRet outcome := λ A a, Got a.

Global Instance outcome_bind : MBind outcome := λ A B k m,
  match m with
  | Got a => k a
  | AttributeError => AttributeError
  end.

Definition obj_truthy (obj : pyobj) : bool :=
  match obj with
  | Scalar v => truthy v
  | ModelObj _ _ _ _ _ => true
  end.

Definition getattr (obj : pyobj) (name : string) : outcome pyobj :=
  match obj with
  | Scalar _ => AttributeError
  | ModelObj pk _ _ _ attrs =>
      if decide (name = "pk") then Got (Scalar pk)
      else match attrs !! name with
           | Some v => Got v
           | None => AttributeError
           end
  end.

(** *** get_admin_url and get_related_field *)

Section Getter.

(** [reverse_lazy(viewname, args=(pk,), current_app=...)] of the host, as
    the text of the URL. *)
Variable reverse_lazy : string → value → option string → string.

(** [str.title] of the host. *)
Variable title : string → string.

Definition get_admin_url (instance : pyobj) (admin_prefix : string)
    (current_app : option string) : outcome (option string) :=
  match instance with
  | Scalar _ => AttributeError
  | ModelObj pk app_label model_name _ _ =>
      if negb (truthy pk) then Got None
      else Got (Some (reverse_lazy
                        (admin_prefix +:+ ":" +:+ app_label +:+ "_"
                           +:+ model_name +:+ "_change")
                        pk current_app))
  end.

(** What [get_related_field] binds: the closure variables of [getter] and
    the attributes set on it ([allow_tags] is set only for a link). *)
Record RelatedGetter := {
  as_link : bool;
  related_names : list string;
  getter_admin_prefix : string;
  admin_order_field : string;
  short_description : string;
  allow_tags : bool;
}.

(** [x or y] on an optional string. *)
Definition or_else (x : option string) (y : string) : string :=
  match x with
  | Some s => if bool_decide (s = "") then y else s
  | None => y
  end.

(** [None] stands for the [IndexError] of [related_names[-1]]. *)
Definition get_related_field (name : string)
    (short_description admin_order_field : option string)
    (admin_prefix : string) : option RelatedGetter :=
  let as_link := String.prefix link_to_prefix name in
  let name :=
    if as_link then slice_from (String.length link_to_prefix) name
    else name in
  let related_names := split_dunder name in
  final ← last related_names;
  Some {| as_link := as_link;
          related_names := related_names;
          getter_admin_prefix := admin_prefix;
          admin_order_field := or_else admin_order_field name;
          short_description :=
            or_else short_description (replace_underscores (title final));
          allow_tags := as_link |}.

(** The loop of [getter]. *)
Fixpoint follow (related_names : list string) (obj : pyobj)
  : outcome pyobj :=
  match related_names with
  | [] => Got obj
  | related_name :: rest =>
      if negb (obj_truthy obj) then follow rest obj
      else obj ← getattr obj related_name; follow rest obj
  end.

(** The text of a [%s] argument. *)
Definition percent_s (url : option string) : string :=
  default "None" url.

Definition obj_str (obj : pyobj) : string :=
  match obj with
  | ModelObj _ _ _ display _ => display
  | Scalar (PyStr s) => s
  | Scalar _ => ""
  end.

(** [getter(self, obj)]; [admin_site_name] is [self.admin_site.name]. *)
Definition getter (g : RelatedGetter) (admin_site_name : string)
    (obj : pyobj) : outcome pyobj :=
  obj ← follow (related_names g) obj;
  if obj_truthy obj && as_link g then
    url ← get_admin_url obj (getter_admin_prefix g) (Some admin_site_name);
    Got (Scalar (PyStr
      ("<a href=" +:+ Widgets.dq +:+ percent_s url +:+ Widgets.dq
         +:+ " class=" +:+ Widgets.dq +:+ "link-with-icon" +:+ Widgets.dq
         +:+ ">" +:+ obj_str obj
         +:+ "<i class=" +:+ Widgets.dq +:+ "fa fa-caret-right"
         +:+ Widgets.dq +:+ "></i></a>")))
  else Got obj.

(** *** RelatedFieldAdminMetaclass.__new__ *)

(** An attribute of the new class: a getter put there by the metaclass,
    or anything else. *)
Inductive class_attr :=
  | Getter (g : RelatedGetter)
  | Other.

(** The loop of [__new__] over [new_class.list_display], on the
    attributes of the class; [None] as in [get_related_field]. *)
Fixpoint __new__ (related_field_admin_prefix : string)
    (list_display : list string) (new_class : gmap string class_attr)
  : option (gmap string class_attr) :=
  match list_display with
  | [] => Some new_class
  | field :: rest =>
      if contains_dunder field || String.prefix link_to_prefix field then
        if negb (bool_decide (is_Some (new_class !! field))) then
          g ← get_related_field field None None related_field_admin_prefix;
          __new__ related_field_admin_prefix rest
            (<[field := Getter g]> new_class)
        else __new__ related_field_admin_prefix rest new_class
      else __new__ related_field_admin_prefix rest new_class
  end.

End Getter.

(** *** RelatedFieldAdmin.get_queryset *)

(** What [model._meta.get_field] answers for a name: a field whose
    [remote_field] is a [ManyToOneRel], or another field; a name that is
    not in the map raises [FieldDoesNotExist]. *)
Inductive field_kind := ManyToOne | OtherField.

Global Instance field_kind_eq_dec : EqDecision field_kind.
Proof. solve_decision. Defined.

(** The first loop: the related path of each field with ["__"]. *)
Fixpoint related_paths (list_display : list string) : list string :=
  match list_display with
  | [] => []
  | field :: rest =>
      if contains_dunder field then
        let field :=
          if String.prefix link_to_prefix field
          then slice_from (String.length link_to_prefix) field
          else field in
        rsplit_head field :: related_paths rest
      else related_paths rest
  end.

(** The second loop: the foreign keys among the names. *)
Fixpoint foreign_keys (meta : gmap string field_kind)
    (list_display : list string) : list string :=
  match list_display with
  | [] => []
  | field_name :: rest =>
      match meta !! field_name with
      | None => foreign_keys meta rest
      | Some field =>
          if decide (field = ManyToOne)
          then field_name :: foreign_keys meta rest
          else foreign_keys meta rest
      end
  end.

Section Queryset.
Context {QuerySet : Type}.

(** [qs.select_related] of the host, given the names. *)
Variable select_related : QuerySet → list string → QuerySet.

(** [qs] is what the host's [get_queryset] returned, [meta] the fields of
    [qs.model]. *)
Definition get_queryset (list_display : list string)
    (meta : gmap string field_kind) (qs : QuerySet) : QuerySet :=
  select_related qs (related_paths list_display ++ foreign_keys meta list_display).

End Queryset.

End Related.

(* ===================================================================== *)
(** ** suit/admin.py: form classes and widgets, as objects *)
(* ===================================================================== *)

Module Forms.
Import Py.

(** Form classes, their [Meta] classes, the [widgets] dicts and the
    widgets are objects that several owners can hold; the heap gives, per
    address, the [Meta] of a form class (none when absent), the [widgets]
    dict of a [Meta] (none when absent or [None]), the content of a dict
    (names to widgets) and the [attrs] of a widget. *)
Record heap := {
  form_meta : gmap positive positive;
  meta_widgets : gmap positive positive;
  dicts : gmap positive (gmap string positive);
  widget_attrs : gmap positive (gmap string string);
}.

(** [SortableListForm.Meta], made once when the module is loaded. *)
Definition SortableListForm_Meta : positive := 1%positive.

(** The heap when the module is loaded: [SortableListForm.Meta.widgets]
    holds a [NumberInput] under ["order"]. *)
Definition loaded : heap :=
  {| form_meta := ∅;
     meta_widgets := {[ SortableListForm_Meta := 1%positive ]};
     dicts := {[ 1%positive := {[ "order" := 1%positive ]} ]};
     widget_attrs :=
       {[ 1%positive := {[ "class" := "hide input-mini suit-sortable" ]} ]} |}.

(** [SortableListForm.Meta.widgets["order"]]. *)
Definition shared_order_widget (h : heap) : result positive :=
  match meta_widgets h !! SortableListForm_Meta with
  | None => Raise TypeError
  | Some d => getitem (dicts h !!! d) "order"
  end.

(** *** SortableModelAdmin.merge_form_meta *)

Definition merge_form_meta (self_sortable : string) (form : positive)
    (h : heap) : result heap :=
  (* if not getattr(form, "Meta", None): form.Meta = SortableListForm.Meta *)
  let h :=
    match form_meta h !! form with
    | Some _ => h
    | None =>
        {| form_meta := <[form := SortableListForm_Meta]> (form_meta h);
           meta_widgets := meta_widgets h; dicts := dicts h;
           widget_attrs := widget_attrs h |}
    end in
  let meta := default SortableListForm_Meta (form_meta h !! form) in
  (* if not getattr(form.Meta, "widgets", None): form.Meta.widgets = {} *)
  let present :=
    match meta_widgets h !! meta with
    | Some d => negb (bool_decide (dicts h !!! d = ∅))
    | None => false
    end in
  let h :=
    if present then h
    else
      let d := fresh (dom (dicts h)) in
      {| form_meta := form_meta h;
         meta_widgets := <[meta := d]> (meta_widgets h);
         dicts := <[d := ∅]> (dicts h);
         widget_attrs := widget_attrs h |} in
  (* form.Meta.widgets[self.sortable] = SortableListForm.Meta.widgets["order"] *)
  widget ← shared_order_widget h;
  match meta_widgets h !! meta with
  | None => Raise TypeError
  | Some d =>
      Return
        {| form_meta := form_meta h; meta_widgets := meta_widgets h;
           dicts := <[d := <[self_sortable := widget]> (dicts h !!! d)]>
                      (dicts h);
           widget_attrs := widget_attrs h |}
  end.

(** *** formfield_for_dbfield *)

(** A keyword argument handed on to the host: a widget, or anything
    else. *)
Inductive kwarg :=
  | KwWidget (w : positive)
  | KwOther.

End Forms.

Module TabularFormfield.
Import Py Forms.

(** The keyword arguments that reach the host's [formfield_for_dbfield]. *)
Definition formfield_for_dbfield (self_sortable db_field_name : string)
    (kwargs : gmap string kwarg) (h : heap)
  : result (gmap string kwarg * heap) :=
  if bool_decide (db_field_name = self_sortable) then
    widget ← shared_order_widget h;
    mret (<["widget" := KwWidget widget]> kwargs, h)
  else mret (kwargs, h).

End TabularFormfield.

Module StackedFormfield.
Import Py Forms.

(** [copy.deepcopy] makes a new widget with [attrs] of its own. *)
Definition formfield_for_dbfield (self_sortable db_field_name : string)
    (kwargs : gmap string kwarg) (h : heap)
  : result (gmap string kwarg * heap) :=
  if bool_decide (db_field_name = self_sortable) then
    widget ← shared_order_widget h;
    let copy := fresh (dom (widget_attrs h)) in
    let attrs := widget_attrs h !!! widget in
    let kwargs := <["widget" := KwWidget copy]> kwargs in
    class ← getitem attrs "class";
    let attrs := <["class" := class +:+ " suit-sortable-stacked"]> attrs in
    let attrs := <["rowclass" := " suit-sortable-stacked-row"]> attrs in
    mret (kwargs,
          {| form_meta := form_meta h; meta_widgets := meta_widgets h;
             dicts := dicts h;
             widget_attrs := <[copy := attrs]> (widget_attrs h) |})
  else mret (kwargs, h).

End StackedFormfield.

(* ===================================================================== *)
(** ** Notions used in the statements *)
(* ===================================================================== *)

Import Py Admin Persister.

(** One step of [__init__]: append [x] to a sequence that lacks it. *)
Definition with_member (x : string) (s : pyseq) : pyseq :=
  if bool_decide (x ∈ items s) then s else SeqList (items s ++ [x]).

(** Records that carry a grouping key (the parent they are ordered
    under), each row with its key: [obj.__class__.objects] holds the rows
    of every key, a scope those of one key. *)
Definition table_rows (table : list (Z * StoredRow)) : list StoredRow :=
  table.*2.

Definition scope_rows (s : Z) (table : list (Z * StoredRow))
  : list StoredRow :=
  (filter (λ p, p.1 = s) table).*2.

(** The names shown by a whole configuration. *)
Definition all_names (σ : store) (fieldsets : list (list line)) : list string :=
  fieldset ← fieldsets; grouping_names σ fieldset.

(** A fieldset as the host documents it: a name and a non-empty option
    dict, here with a list of fields held at [l]. *)
Definition listed_fieldset (fieldset : list line) (l : loc) : Prop :=
  ∃ name d,
    fieldset = [name; LineDict d]
    ∧ is_dict name = false
    ∧ d !! "fields" = Some (VList l).

(** The order field is named at most once in [its], and not inside a row. *)
Definition named_once (x : string) (its : list item) : Prop :=
  (count (Field x) its ≤ 1)%nat
  ∧ ∀ names, FieldRow names ∈ its → x ∉ names.

(** The property without any condition on the configuration: the
    fieldsets come back with the order field first in the first grouping,
    and only there. *)
Definition order_first_only (x : string) (fieldsets : list (list line))
    (σ : store) : Prop :=
  ∃ σ' first rest,
    get_fieldsets x fieldsets σ = (σ', Return fieldsets)
    ∧ fieldsets = first :: rest
    ∧ head (grouping_names σ' first) = Some x
    ∧ count x (all_names σ' fieldsets) = 1%nat.

(** The guard at the top of the inner loop. *)
Definition skipped (ln : line) : Prop :=
  negb (line_truthy ln) || negb (is_dict ln) = true.

(** What a batch does to one record. *)
Definition reordered (batch : ReorderBatch) (i : Z) (r : OrderedRecord)
  : OrderedRecord :=
  match assignment batch !! i with
  | Some new_order => set_order new_order r
  | None => r
  end.

(** Field names as the host has them: the order field does not start
    with a dash and is not the key. *)
Definition plain_names (self : SortableChangeList) : Prop :=
  (∀ rest, sortable (model_admin self) ≠ String "-" rest)
  ∧ sortable (model_admin self) ≠ pk_name (model self).

(** The order a batch asks for, on identifiers. *)
Definition asked_before (batch : ReorderBatch) (i j : Z) : Prop :=
  ∃ m n, assignment batch !! i = Some m ∧ assignment batch !! j = Some n
         ∧ batch_le (i, m) (j, n).

(** A field name without its link prefix, as [get_related_field] and
    [get_queryset] strip it. *)
Definition stripped (field : string) : string :=
  if String.prefix Related.link_to_prefix field
  then Related.slice_from (String.length Related.link_to_prefix) field
  else field.

(** The fields for which the metaclass makes a getter. *)
Definition needs_getter (field : string) : bool :=
  Related.contains_dunder field
  || String.prefix Related.link_to_prefix field.

(** The anchor that a link getter answers. *)
Definition anchor (href text : string) : string :=
  "<a href=" +:+ Widgets.dq +:+ href +:+ Widgets.dq
    +:+ " class=" +:+ Widgets.dq +:+ "link-with-icon" +:+ Widgets.dq
    +:+ ">" +:+ text
    +:+ "<i class=" +:+ Widgets.dq +:+ "fa fa-caret-right"
    +:+ Widgets.dq +:+ "></i></a>".

(** The entry that the caller's dicts give to a key: [attrs] first, then
    [defaults]. *)
Definition given (attrs defaults : option (gmap string value))
    (k : string) : option value :=
  match default ∅ attrs !! k with
  | Some v => Some v
  | None => default ∅ defaults !! k
  end.

(** [SortableListForm.Meta.widgets] is a dict that holds the widget [w]
    under ["order"]. *)
Definition list_form_holds (h : Forms.heap) (w : positive) : Prop :=
  ∃ d, Forms.meta_widgets h !! Forms.SortableListForm_Meta = Some d
       ∧ (Forms.dicts h !!! d) !! "order" = Some w.

(* ===================================================================== *)
(** ** Configurations of the scenarios *)
(* ===================================================================== *)

Definition order_admin : SortableModelAdmin :=
  {| sortable := "order"; ordering := SeqNone;
     list_display := SeqTuple ["__str__"]; list_editable := SeqTuple [];
     exclude := SeqNone |}.

Definition order_changelist : SortableChangeList :=
  {| model_admin := order_admin; model := {| pk_name := "id" |} |}.

Definition three_rows : list StoredRow :=
  [ {| row_pk := 1; row_order := Some 2 |};
    {| row_pk := 2; row_order := None |};
    {| row_pk := 3; row_order := Some 7 |} ].

Definition new_instance : Instance :=
  {| pk := PyNone; attrs := {[ "name" := PyStr "first" ]} |}.

(** A table with two groups: the records of parent 1 have orders 1 and
    2, the record of parent 2 has order 7; and a new record of parent 1. *)
Definition two_groups : list (Z * StoredRow) :=
  [ (1, {| row_pk := 1; row_order := Some 1 |});
    (1, {| row_pk := 2; row_order := Some 2 |});
    (2, {| row_pk := 3; row_order := Some 7 |}) ].

Definition grouped_instance : Instance :=
  {| pk := PyNone; attrs := {[ "parent" := PyInt 1 ]} |}.

(** An existing record with key 0 and order 5, stored next to a record of
    order 7. *)
Definition zero_instance : Instance :=
  {| pk := PyInt 0; attrs := {[ "order" := PyInt 5 ]} |}.

Definition zero_objects : list StoredRow :=
  [ {| row_pk := 0; row_order := Some 5 |};
    {| row_pk := 1; row_order := Some 7 |} ].

(** An admin whose [list_editable] names the order field twice. *)
Definition twice_admin : SortableModelAdmin :=
  {| sortable := "order"; ordering := SeqNone;
     list_display := SeqList ["name"; "order"];
     list_editable := SeqList ["order"; "order"];
     exclude := SeqNone |}.

(** The scenario of the specification: one unnamed grouping whose list
    of fields is name, order, description. *)
Definition supplied_store : store :=
  {[ 1%positive := [Field "name"; Field "order"; Field "description"] ]}.

Definition supplied_options : gmap string optval :=
  {[ "fields" := VList 1%positive ]}.

Definition supplied_fieldsets : list (list line) :=
  [[LineNone; LineDict supplied_options]].

(** A list of fields with the order field inside a row. *)
Definition row_store : store :=
  {[ 1%positive := [FieldRow ["order"; "name"]; Field "description"] ]}.

(** Two groupings with a list each: the first names name only, the
    second shows the order field in a row with x, followed by note. *)
Definition row_second_store : store :=
  {[ 1%positive := [Field "name"];
     2%positive := [FieldRow ["order"; "x"]; Field "note"] ]}.

Definition more_options : gmap string optval :=
  {[ "fields" := VList 2%positive ]}.

Definition row_second_fieldsets : list (list line) :=
  [[LineNone; LineDict supplied_options];
   [LineStr "More"; LineDict more_options]].

(** A list of fields naming the order field twice. *)
Definition repeated_store : store :=
  {[ 1%positive := [Field "order"; Field "order"; Field "name"] ]}.

(** A first grouping with an empty option dict. *)
Definition empty_first_fieldsets : list (list line) :=
  [[LineNone; LineDict ∅]; [LineStr "Details"; LineDict supplied_options]].

(** Two groupings holding the same list object. *)
Definition shared_fieldsets : list (list line) :=
  [[LineNone; LineDict supplied_options];
   [LineStr "Details"; LineDict supplied_options]].

Definition name_store : store := {[ 1%positive := [Field "name"] ]}.

(** A list-valued grouping followed by a tuple-valued one. *)
Definition tuple_options : gmap string optval :=
  {[ "fields" := VTuple [Field "order"; Field "note"] ]}.

Definition tuple_second_fieldsets : list (list line) :=
  [[LineNone; LineDict supplied_options];
   [LineStr "Notes"; LineDict tuple_options]].

(** The scenario of the specification: records A, B, C (identifiers 1,
    2, 3) of one scope with orders 1, 2, 3, and the batch that puts C
    first. *)
Definition abc_storage : storage :=
  {[ 1 := {| scope := 0; order := Some 1 |};
     2 := {| scope := 0; order := Some 2 |};
     3 := {| scope := 0; order := Some 3 |} ]}.

Definition abc_batch : ReorderBatch := [(3, 1); (1, 2); (2, 3)].

(** A batch naming an identifier that is not stored. *)
Definition stray_batch : ReorderBatch := [(3, 1); (9, 2)].

(** Options whose [fields] entry is [None]. *)
Definition none_options : gmap string optval := {[ "fields" := VNone ]}.

Definition none_second_fieldsets : list (list line) :=
  [[LineNone; LineDict supplied_options];
   [LineStr "Notes"; LineDict none_options]].

(** A fieldset with a second dict, tuple-valued, after the first. *)
Definition two_dict_fieldsets : list (list line) :=
  [[LineNone; LineDict supplied_options; LineDict tuple_options]].

(** A money input with a prefix and an icon suffix. *)
Definition money_input : Widgets.EnclosedInput :=
  {| Widgets.prepend := Some "$"; Widgets.prepend_class := "addon";
     Widgets.append := Some "fa-check"; Widgets.append_class := "btn" |}.

(** A person with an address in a city, and an address without city. *)
Definition riga : Related.pyobj :=
  Related.ModelObj (PyInt 3) "geo" "city" "Riga"
    {[ "name" := Related.Scalar (PyStr "Riga") ]}.

Definition main_street : Related.pyobj :=
  Related.ModelObj (PyInt 7) "geo" "address" "Main street 1"
    {[ "city" := riga ]}.

Definition nowhere : Related.pyobj :=
  Related.ModelObj (PyInt 8) "geo" "address" "Nowhere"
    {[ "city" := Related.Scalar PyNone ]}.

Definition ann : Related.pyobj :=
  Related.ModelObj (PyInt 1) "crm" "person" "Ann"
    {[ "address" := main_street; "name" := Related.Scalar (PyStr "Ann") ]}.

Definition bob : Related.pyobj :=
  Related.ModelObj (PyInt 2) "crm" "person" "Bob"
    {[ "address" := nowhere; "name" := Related.Scalar (PyStr "Bob") ]}.

(** A person whose address was not saved yet. *)
Definition draft_street : Related.pyobj :=
  Related.ModelObj PyNone "geo" "address" "Draft street" ∅.

Definition eve : Related.pyobj :=
  Related.ModelObj (PyInt 4) "crm" "person" "Eve"
    {[ "address" := draft_street ]}.

(** Getters as [get_related_field] binds them. *)
Definition city_name_getter : Related.RelatedGetter :=
  {| Related.as_link := false;
     Related.related_names := ["address"; "city"; "name"];
     Related.getter_admin_prefix := "admin";
     Related.admin_order_field := "address__city__name";
     Related.short_description := "Name";
     Related.allow_tags := false |}.

Definition name_link_getter : Related.RelatedGetter :=
  {| Related.as_link := true;
     Related.related_names := ["name"];
     Related.getter_admin_prefix := "admin";
     Related.admin_order_field := "name";
     Related.short_description := "Name";
     Related.allow_tags := true |}.

Definition address_link_getter : Related.RelatedGetter :=
  {| Related.as_link := true;
     Related.related_names := ["address"];
     Related.getter_admin_prefix := "admin";
     Related.admin_order_field := "address";
     Related.short_description := "Address";
     Related.allow_tags := true |}.

(** Stand-ins for the host's [reverse_lazy] and [str.title]. *)
Definition view_name_url (viewname : string) (pk : value)
    (current_app : option string) : string := viewname.

Definition same_text (s : string) : string := s.

(** A form class (at 7) with a [Meta] of its own (at 2) whose [widgets]
    (the dict at 2) hold a widget (at 4) under ["title"], beside what the
    module holds when loaded. *)
Definition titled_form_heap : Forms.heap :=
  {| Forms.form_meta := {[ 7%positive := 2%positive ]};
     Forms.meta_widgets :=
       {[ Forms.SortableListForm_Meta := 1%positive;
          2%positive := 2%positive ]};
     Forms.dicts :=
       {[ 1%positive := {[ "order" := 1%positive ]};
          2%positive := {[ "title" := 4%positive ]} ]};
     Forms.widget_attrs :=
       {[ 1%positive := {[ "class" := "hide input-mini suit-sortable" ]};
          4%positive := {[ "class" := "vTextField" ]} ]} |}.

(* ===================================================================== *)
(** ** Properties of the Python fragment *)
(* ===================================================================== *)

Section PyFacts.
Context {A : Type} `{EqDecision A}.
Implicit Types (x y : A) (l : list A).

Lemma count_nil x : count x [] = 0%nat.
Proof. reflexivity. Qed.

Lemma count_cons x y l :
  count x (y :: l) = ((if decide (y = x) then 1 else 0) + count x l)%nat.
Proof. unfold count. rewrite filter_cons. by destruct (decide (y = x)). Qed.

Lemma count_app x l1 l2 : count x (l1 ++ l2) = (count x l1 + count x l2)%nat.
Proof. unfold count. by rewrite filter_app, length_app. Qed.

Lemma count_absent x l : x ∉ l ↔ count x l = 0%nat.
Proof.
  induction l as [|y l IH].
  { split; [done|]. intros _. apply not_elem_of_nil. }
  rewrite count_cons, not_elem_of_cons, IH.
  destruct (decide (y = x)) as [->|Hne]; split.
  - by intros [? _].
  - intros ?; lia.
  - by intros [_ ->].
  - intros ?; split; [congruence|lia].
Qed.

Lemma count_present x l : x ∈ l ↔ (1 ≤ count x l)%nat.
Proof.
  destruct (decide (x ∈ l)) as [Hin|Hout]; split; try done.
  - intros _. destruct (count x l) eqn:E; [|lia]. by apply count_absent in E.
  - apply count_absent in Hout. lia.
Qed.

Lemma count_remove_first x l :
  x ∈ l → count x l = S (count x (remove_first x l)).
Proof.
  induction l as [|y l IH]; [by intros ?%elem_of_nil|].
  intros Hin. simpl. rewrite count_cons. destruct (decide (y = x)); [done|].
  rewrite count_cons, decide_False by done. apply IH.
  by apply elem_of_cons in Hin as [->|?].
Qed.

Lemma count_remove_first_ne x y l :
  x ≠ y → count y (remove_first x l) = count y l.
Proof.
  intros Hne. induction l as [|z l IH]; [done|]. simpl.
  destruct (decide (z = x)) as [->|].
  - by rewrite count_cons, decide_False.
  - by rewrite !count_cons, IH.
Qed.

Lemma remove_first_subseteq x y l : y ∈ remove_first x l → y ∈ l.
Proof.
  induction l as [|z l IH]; [done|]. simpl.
  destruct (decide (z = x)); [by right|].
  intros [->|?]%elem_of_cons; [left|right; auto].
Qed.

Lemma count_bind_absent {B} (f : B → list A) x (bs : list B) :
  (∀ b, b ∈ bs → x ∉ f b) → count x (bs ≫= f) = 0%nat.
Proof.
  intros Hout. apply count_absent.
  intros (b & Hx & Hb)%list_elem_of_bind. by apply (Hout b).
Qed.

Lemma remove_first_absent x l : x ∉ l → remove_first x l = l.
Proof.
  induction l as [|y l IH]; [done|]. rewrite not_elem_of_cons.
  intros [Hne Hout]. simpl. rewrite decide_False by done. by rewrite IH.
Qed.

End PyFacts.

(* ===================================================================== *)
(** ** SortableChangeList *)
(* ===================================================================== *)

Section ChangeListProperties.
Context {Request QuerySet : Type}.
Implicit Types (self : SortableChangeList) (request : Request)
  (queryset : QuerySet).

Lemma order_term_descending (field : string) :
  order_term ("-" +:+ field) = (Desc, field).
Proof. reflexivity. Qed.

Lemma order_term_ascending (field : string) :
  (∀ rest, field ≠ String "-" rest) → order_term field = (Asc, field).
Proof.
  intros Hfield. destruct field as [|c rest]; [done|].
  unfold order_term. destruct c as [[] [] [] [] [] [] [] []]; try done.
  by destruct (Hfield rest).
Qed.

Lemma get_ordering_terms self request queryset :
  (∀ rest, sortable (model_admin self) ≠ String "-" rest) →
  order_term <$> get_ordering self request queryset
    = [(Asc, sortable (model_admin self)); (Desc, pk_name (model self))].
Proof.
  intros Hname. unfold get_ordering. simpl.
  by rewrite order_term_ascending.
Qed.

(** C2. Whatever the request and the queryset, [get_ordering] answers the
    two terms [sortable] and ["-" + pk name]; the host reads them as the
    order field ascending, then the identifier descending (a field name
    does not start with a dash). *)
Theorem get_ordering_fixed self request queryset :
  get_ordering self request queryset
    = [sortable (model_admin self); "-" +:+ pk_name (model self)]
  ∧ (∀ request' queryset',
       get_ordering self request' queryset'
         = get_ordering self request queryset)
  ∧ ((∀ rest, sortable (model_admin self) ≠ String "-" rest) →
       order_term <$> get_ordering self request queryset
         = [(Asc, sortable (model_admin self)); (Desc, pk_name (model self))]).
Proof.
  split_and!; [done..|]. apply get_ordering_terms.
Qed.

End ChangeListProperties.

Lemma get_ordering_fixed_witness :
  order_term <$> get_ordering order_changelist tt tt
    = [(Asc, "order"); (Desc, "id")].
Proof.
  apply (proj2 (proj2 (get_ordering_fixed order_changelist tt tt))).
  intros rest. simpl. discriminate.
Defined.

(* ===================================================================== *)
(** ** SortableModelAdmin.save_model *)
(* ===================================================================== *)

Section ColumnMax.
Implicit Types (S : list StoredRow) (l : list Z).

Lemma foldr_max_elem d l : foldr Z.max d l ∈ d :: l.
Proof.
  induction l as [|x l IH]; simpl; [left|].
  destruct (Z.max_spec x (foldr Z.max d l)) as [[_ ->]|[_ ->]].
  - apply elem_of_cons in IH as [->|?]; [left|right; by right].
  - right; left.
Qed.

Lemma foldr_max_upper d l x : x ∈ d :: l → x ≤ foldr Z.max d l.
Proof.
  induction l as [|y l IH]; simpl.
  - intros ->%list_elem_of_singleton. lia.
  - rewrite !elem_of_cons. intros [->|[->|Hx]].
    + etrans; [apply IH; left|lia].
    + lia.
    + etrans; [apply IH; by right|lia].
Qed.

Lemma column_max_None S :
  column_max S = PyNone ↔ ∀ r, r ∈ S → row_order r = None.
Proof.
  unfold column_max. split.
  - destruct (omap row_order S) as [|o os] eqn:E; [|done].
    intros _ r Hr. destruct (row_order r) as [o|] eqn:Ho; [|done].
    assert (o ∈ omap row_order S) as Hin by (apply list_elem_of_omap; eauto).
    rewrite E in Hin. by apply elem_of_nil in Hin.
  - intros Hnull. destruct (omap row_order S) as [|o os] eqn:E; [done|].
    assert (o ∈ omap row_order S) as Hin by (rewrite E; left).
    apply list_elem_of_omap in Hin as (r & Hr & Ho).
    rewrite (Hnull r Hr) in Ho. done.
Qed.

Lemma column_max_greatest S M :
  (∃ r, r ∈ S ∧ row_order r = Some M) →
  (∀ r o, r ∈ S → row_order r = Some o → o ≤ M) →
  column_max S = PyInt M.
Proof.
  intros (r & Hr & HM) Hub. unfold column_max.
  assert (M ∈ omap row_order S) as Hin by (apply list_elem_of_omap; eauto).
  assert (∀ o, o ∈ omap row_order S → o ≤ M) as Hub'.
  { intros o (r' & Hr' & Ho)%list_elem_of_omap. eauto. }
  destruct (omap row_order S) as [|o os]; [by apply elem_of_nil in Hin|].
  f_equal. apply Z.le_antisymm.
  - apply Hub', foldr_max_elem.
  - by apply foldr_max_upper.
Qed.

Lemma next_order_aggregate self S :
  next_order self (aggregate_Max (sortable self) S)
    = match column_max S with
      | PyInt M => Return (PyInt (M + 1))
      | _ => Return (PyInt 1)
      end.
Proof.
  unfold next_order, aggregate_Max, getitem.
  rewrite lookup_singleton_eq. simpl.
  unfold column_max. by destruct (omap row_order S).
Qed.

End ColumnMax.

(** The [try] block over the aggregate of any collection: one more than
    the greatest order stored in it, and 1 when the collection is empty
    or holds no order at all. *)
Lemma next_order_of_collection (self : SortableModelAdmin)
    (S : list StoredRow) :
  let next := next_order self (aggregate_Max (sortable self) S) in
  (∃ n, next = Return (PyInt n))
  ∧ (∀ M, (∃ r, r ∈ S ∧ row_order r = Some M) →
          (∀ r o, r ∈ S → row_order r = Some o → o ≤ M) →
          next = Return (PyInt (M + 1)))
  ∧ (S = [] → next = Return (PyInt 1))
  ∧ ((∀ r, r ∈ S → row_order r = None) → next = Return (PyInt 1)).
Proof.
  simpl. rewrite next_order_aggregate. split_and!.
  - destruct (column_max S); eauto.
  - intros M Hin Hub. by rewrite (column_max_greatest S M).
  - intros ->. done.
  - intros Hnull. apply column_max_None in Hnull. by rewrite Hnull.
Qed.

(** The scenario of the specification: 1 on an empty collection, then 2
    once a record of order 1 is stored. *)
Example next_order_first_then_second :
  next_order order_admin (aggregate_Max "order" []) = Return (PyInt 1)
  ∧ next_order order_admin
      (aggregate_Max "order" [ {| row_pk := 1; row_order := Some 1 |} ])
    = Return (PyInt 2).
Proof. split; reflexivity. Qed.

Section SaveModelProperties.
Context {Request Form World : Type}.
Variable ModelAdmin_save_model :
  Request → Instance → Form → bool → list StoredRow → result World.
Implicit Types (self : SortableModelAdmin) (obj : Instance)
  (objects : list StoredRow).

(** A record whose key is truthy is handed to the host as it is. *)
Lemma save_model_truthy_pk self request obj form change objects :
  truthy (pk obj) = true →
  save_model ModelAdmin_save_model self request obj form change objects
    = ModelAdmin_save_model request obj form change objects.
Proof. intros Hpk. unfold save_model. by rewrite Hpk. Qed.

(** A record whose key is falsy gets the next order before it is stored. *)
Lemma save_model_falsy_pk self request obj form change objects :
  truthy (pk obj) = false →
  save_model ModelAdmin_save_model self request obj form change objects
    = ModelAdmin_save_model request
        (setattr obj (sortable self)
           match column_max objects with
           | PyInt M => PyInt (M + 1)
           | _ => PyInt 1
           end)
        form change objects.
Proof.
  intros Hpk. unfold save_model. rewrite Hpk. simpl.
  rewrite next_order_aggregate. by destruct (column_max objects).
Qed.

(** C1. The one scope of the next-order computation is the collection
    that [save_model] queries, [obj.__class__.objects]: a record with a
    falsy key (a new one) reaches the host with its order field set to
    an integer, which is M + 1 when M is the greatest order stored in
    the collection, and 1 when the collection is empty or holds no order
    at all. *)
Theorem save_model_next_order self request obj form change objects :
  truthy (pk obj) = false →
  ∃ n,
    save_model ModelAdmin_save_model self request obj form change objects
    = ModelAdmin_save_model request
        (setattr obj (sortable self) (PyInt n)) form change objects
    ∧ (∀ M, (∃ r, r ∈ objects ∧ row_order r = Some M) →
            (∀ r o, r ∈ objects → row_order r = Some o → o ≤ M) →
            n = M + 1)
    ∧ (objects = [] → n = 1)
    ∧ ((∀ r, r ∈ objects → row_order r = None) → n = 1).
Proof.
  intros Hpk. rewrite save_model_falsy_pk by done.
  destruct (column_max objects) as [|M'|t] eqn:Hmax.
  - exists 1. split_and!; try done.
    intros M Hin Hub. by rewrite (column_max_greatest objects M) in Hmax.
  - exists (M' + 1). split_and!; [done| | |].
    + intros M Hin Hub.
      rewrite (column_max_greatest objects M) in Hmax by done.
      by injection Hmax as ->.
    + intros ->. done.
    + intros Hnull. apply column_max_None in Hnull. congruence.
  - exists 1. split_and!; try done.
    intros M Hin Hub. by rewrite (column_max_greatest objects M) in Hmax.
Qed.

(** C7. When the aggregate holds [None], or any value to which 1 cannot
    be added, the [TypeError] is caught and the next order is 1; a new
    record saved over a collection without orders is stored with order 1. *)
Theorem next_order_swallows_TypeError self request obj form change objects
    (max_order : gmap string value) (m : value) :
  (max_order !! (sortable self +:+ "__max") = Some m →
   m = PyNone ∨ add m (PyInt 1) = Raise TypeError →
   next_order self max_order = Return (PyInt 1))
  ∧ (truthy (pk obj) = false →
     column_max objects = PyNone →
     save_model ModelAdmin_save_model self request obj form change objects
       = ModelAdmin_save_model request
           (setattr obj (sortable self) (PyInt 1)) form change objects).
Proof.
  split.
  - intros Hm Hadd. unfold next_order, getitem. rewrite Hm. simpl.
    destruct Hadd as [-> | Hraise]; [done|]. by rewrite Hraise.
  - intros Hpk Hmax. rewrite save_model_falsy_pk by done. by rewrite Hmax.
Qed.

End SaveModelProperties.

Lemma save_model_next_order_witness :
  save_model (λ _ obj _ _ _, Return obj) order_admin tt new_instance tt
    false three_rows
  = Return (setattr new_instance "order" (PyInt 8))
  ∧ save_model (λ _ obj _ _ _, Return obj) order_admin tt new_instance tt
      false []
    = Return (setattr new_instance "order" (PyInt 1)).
Proof.
  split.
  - destruct (save_model_next_order
      (λ (_ : unit) obj (_ : unit) (_ : bool) (_ : list StoredRow),
         Return obj)
      order_admin tt new_instance tt false three_rows eq_refl)
      as (n & Hsave & Hmax & _ & _).
    rewrite Hsave. rewrite (Hmax 7); [reflexivity| |].
    + exists {| row_pk := 3; row_order := Some 7 |}. split; [|done].
      unfold three_rows. do 2 right. left.
    + intros r o Hr Ho. unfold three_rows in Hr.
      repeat (apply elem_of_cons in Hr as [->|Hr]);
        [simpl in Ho; simplify_eq; lia..|by apply elem_of_nil in Hr].
  - destruct (save_model_next_order
      (λ (_ : unit) obj (_ : unit) (_ : bool) (_ : list StoredRow),
         Return obj)
      order_admin tt new_instance tt false [] eq_refl)
      as (n & Hsave & _ & Hempty & _).
    rewrite Hsave, Hempty; reflexivity.
Defined.

(** The collection queried is the whole table: a new record of parent 1,
    whose group has the greatest order 2, is stored with order 8, one
    more than the order 7 of a record of parent 2, and not with 3. *)
Lemma save_model_queries_whole_table :
  column_max (scope_rows 1 two_groups) = PyInt 2
  ∧ save_model (λ _ obj _ _ _, Return obj) order_admin tt grouped_instance
      tt false (table_rows two_groups)
    = Return (setattr grouped_instance "order" (PyInt 8))
  ∧ attrs (setattr grouped_instance "order" (PyInt 8)) !! "order"
    ≠ Some (PyInt (2 + 1)).
Proof. split_and!; [reflexivity|reflexivity|]. vm_compute. discriminate. Qed.

Lemma next_order_swallows_TypeError_witness :
  next_order order_admin {[ "order__max" := PyStr "seven" ]}
    = Return (PyInt 1)
  ∧ save_model (λ _ obj _ _ _, Return obj) order_admin tt new_instance tt
      false [ {| row_pk := 4; row_order := None |} ]
    = Return (setattr new_instance "order" (PyInt 1)).
Proof.
  pose proof (next_order_swallows_TypeError
    (λ (_ : unit) obj (_ : unit) (_ : bool) (_ : list StoredRow), Return obj)
    order_admin tt new_instance tt false
    [ {| row_pk := 4; row_order := None |} ]
    {[ "order__max" := PyStr "seven" ]} (PyStr "seven")) as [Hnext Hsave].
  split.
  - apply Hnext; [reflexivity|by right].
  - apply Hsave; reflexivity.
Defined.

(** C6. Saving a change to the existing record of key 0 does not keep its
    order: the key is falsy, the record is taken for a new one and handed
    to the host with order 8 in place of 5. *)
Theorem save_model_zero_pk_reorders {Request Form World : Type}
    (ModelAdmin_save_model :
       Request → Instance → Form → bool → list StoredRow → result World)
    (request : Request) (form : Form) :
  attrs zero_instance !! "order" = Some (PyInt 5)
  ∧ save_model ModelAdmin_save_model order_admin request zero_instance form
      true zero_objects
    = ModelAdmin_save_model request
        (setattr zero_instance "order" (PyInt 8)) form true zero_objects
  ∧ attrs (setattr zero_instance "order" (PyInt 8)) !! "order"
    = Some (PyInt 8).
Proof.
  split_and!; [done| |done].
  by rewrite save_model_falsy_pk.
Qed.

(* ===================================================================== *)
(** ** SortableModelAdmin.__init__ *)
(* ===================================================================== *)

Section InitProperties.
Implicit Types (self : SortableModelAdmin) (s : pyseq) (x : string).

Lemma with_member_elem x s : x ∈ items (with_member x s).
Proof.
  unfold with_member. case_bool_decide; [done|].
  simpl. apply elem_of_app. right. left.
Qed.

Lemma with_member_count x s :
  count x (items (with_member x s)) = Nat.max 1 (count x (items s)).
Proof.
  unfold with_member. case_bool_decide as Hin.
  - apply count_present in Hin. lia.
  - apply count_absent in Hin. simpl.
    rewrite count_app, Hin, count_cons, decide_True by done. done.
Qed.

Lemma items_or_empty s : items (or_empty s) = items s.
Proof.
  unfold or_empty. destruct s as [|xs|xs]; simpl; try done;
    by case_bool_decide; subst.
Qed.

Lemma init_returns self :
  __init__ self = Return
    {| sortable := sortable self;
       ordering := SeqTuple [sortable self];
       list_display :=
         if seq_truthy (list_display self)
         then with_member (sortable self) (list_display self)
         else list_display self;
       list_editable :=
         with_member (sortable self) (or_empty (list_editable self));
       exclude := with_member (sortable self) (or_empty (exclude self)) |}.
Proof.
  destruct self as [x ord ld le ex]. unfold __init__, with_member. simpl.
  assert (∀ s, contains x (or_empty s) = Return (bool_decide (x ∈ items (or_empty s)))
             ∧ to_list (or_empty s) = Return (items (or_empty s))) as Hor.
  { intros [|xs|xs]; unfold or_empty; simpl; try done; by case_bool_decide. }
  destruct (Hor le) as [Hle1 Hle2], (Hor ex) as [Hex1 Hex2].
  destruct ld as [|xs|xs]; simpl;
    repeat (case_bool_decide; simpl);
    unfold append_sortable; simpl;
    rewrite ?Hle1, ?Hle2, ?Hex1, ?Hex2; simpl;
    repeat (case_bool_decide; simpl);
    unfold append_sortable; simpl;
    rewrite ?Hle1, ?Hle2, ?Hex1, ?Hex2; simpl;
    repeat (case_bool_decide; simpl);
    unfold append_sortable; simpl;
    rewrite ?Hle1, ?Hle2, ?Hex1, ?Hex2; simpl; try done.
Qed.

End InitProperties.

(** C9. Construction always succeeds; afterwards the sortable field is in
    [list_editable] and in [exclude], and in [list_display] when that was
    configured non-empty. Each of the three lists holds the field at
    most once whenever it was configured with the field at most once: the
    field is appended only when absent, so a list configured with the
    field holds it exactly as often as configured. *)
Theorem init_sortable_membership (self : SortableModelAdmin) :
  ∃ self',
    __init__ self = Return self'
    ∧ sortable self' = sortable self
    ∧ sortable self ∈ items (list_editable self')
    ∧ sortable self ∈ items (exclude self')
    ∧ (seq_truthy (list_display self) = true →
       sortable self ∈ items (list_display self'))
    ∧ Forall
        (λ option : SortableModelAdmin → pyseq,
           ((count (sortable self) (items (option self)) ≤ 1)%nat →
            (count (sortable self) (items (option self')) ≤ 1)%nat)
           ∧ (sortable self ∈ items (option self) →
              count (sortable self) (items (option self'))
              = count (sortable self) (items (option self))))
        [list_display; list_editable; exclude].
Proof.
  eexists. split; [apply init_returns|]. simpl. split_and!.
  - done.
  - apply with_member_elem.
  - apply with_member_elem.
  - intros ->. apply with_member_elem.
  - assert (∀ s, ((count (sortable self) (items s) ≤ 1)%nat →
                  (count (sortable self) (items (with_member (sortable self) s))
                   ≤ 1)%nat)
                 ∧ (sortable self ∈ items s →
                    count (sortable self)
                      (items (with_member (sortable self) s))
                    = count (sortable self) (items s))) as Hmember.
    { intros s. rewrite with_member_count. split; [lia|].
      intros Hin%count_present. lia. }
    apply Forall_cons_2;
      [|apply Forall_cons_2; [|apply Forall_cons_2; [|apply Forall_nil_2]]];
      simpl.
    + destruct (seq_truthy (list_display self)); [apply Hmember|done].
    + split.
      * intros Hle. rewrite <- items_or_empty in Hle. by apply Hmember.
      * intros Hin. rewrite <- items_or_empty in Hin.
        rewrite (proj2 (Hmember _) Hin). by rewrite items_or_empty.
    + split.
      * intros Hle. rewrite <- items_or_empty in Hle. by apply Hmember.
      * intros Hin. rewrite <- items_or_empty in Hin.
        rewrite (proj2 (Hmember _) Hin). by rewrite items_or_empty.
Qed.

Lemma init_sortable_membership_witness :
  ∃ self',
    __init__ order_admin = Return self'
    ∧ "order" ∈ items (list_display self')
    ∧ (count "order" (items (list_display self')) ≤ 1)%nat.
Proof.
  destruct (init_sortable_membership order_admin)
    as (self' & Hinit & _ & _ & _ & Hdisplay & Hcounts).
  exists self'. split_and!; [done| |].
  - apply Hdisplay. reflexivity.
  - apply Forall_cons_1 in Hcounts as [[Hcount _] _].
    apply Hcount. vm_compute. lia.
Defined.

Lemma init_keeps_configured_duplicates :
  ∃ self',
    __init__ twice_admin = Return self'
    ∧ list_editable self' = SeqList ["order"; "order"]
    ∧ ¬ (count "order" (items (list_editable self')) ≤ 1)%nat.
Proof.
  eexists. split; [reflexivity|]. split; [reflexivity|].
  vm_compute. lia.
Qed.

(* ===================================================================== *)
(** ** SortableStackedInlineBase.get_fieldsets *)
(* ===================================================================== *)

Section GetFieldsetsProperties.
Variable x : string.
Implicit Types (σ : store) (d : gmap string optval) (l : loc)
  (fieldsets : list (list line)) (locs : list loc).

Lemma lookup_total_same σ σ' l : σ' !! l = σ !! l → σ' !!! l = σ !!! l.
Proof. intros Heq. by rewrite !lookup_total_alt, Heq. Qed.

Lemma visit_line_list d σ added l :
  d !! "fields" = Some (VList l) →
  ∃ σ',
    visit_line x d σ added = Return (σ', true, negb added)
    ∧ σ' !!! l
      = (if added then [] else [Field x]) ++ remove_first (Field x) (σ !!! l)
    ∧ ∀ l', l' ≠ l → σ' !! l' = σ !! l'.
Proof.
  intros Hd. unfold visit_line. rewrite Hd. simpl.
  case_bool_decide as Hin; destruct added; simpl; eexists; split; try done.
  - split; [by rewrite lookup_total_insert_eq|].
    intros l' Hl'. by rewrite lookup_insert_ne.
  - split.
    + by rewrite lookup_total_insert_eq, lookup_total_insert_eq.
    + intros l' Hl'. by rewrite !lookup_insert_ne.
  - split; [by rewrite remove_first_absent|done].
  - split.
    + by rewrite lookup_total_insert_eq, remove_first_absent.
    + intros l' Hl'. by rewrite lookup_insert_ne.
Qed.

Lemma for_line_listed fieldset σ added l :
  listed_fieldset fieldset l →
  ∃ σ',
    for_line x fieldset σ added = (σ', Return true)
    ∧ σ' !!! l
      = (if added then [] else [Field x]) ++ remove_first (Field x) (σ !!! l)
    ∧ ∀ l', l' ≠ l → σ' !! l' = σ !! l'.
Proof.
  intros (name & d & -> & Hname & Hd).
  destruct (visit_line_list d σ added l Hd) as (σ' & Hvisit & Hl & Hother).
  exists σ'. split; [|done].
  assert (line_truthy (LineDict d) = true) as Hd'.
  { simpl. case_bool_decide as Hempty; [|done].
    by rewrite Hempty, lookup_empty in Hd. }
  cbn [for_line]. rewrite Hname, orb_true_r.
  rewrite Hd'. cbn [negb orb is_dict]. rewrite Hvisit.
  by destruct added.
Qed.

Lemma for_fieldset_listed fieldsets locs :
  Forall2 listed_fieldset fieldsets locs →
  NoDup locs →
  ∀ σ added,
  ∃ σ',
    for_fieldset x fieldsets σ added
      = (σ', Return (added || negb (bool_decide (fieldsets = []))))
    ∧ (∀ l', l' ∉ locs → σ' !! l' = σ !! l')
    ∧ ∀ (i : nat) l, locs !! i = Some l →
        σ' !!! l
        = (if added || negb (bool_decide (i = 0%nat)) then [] else [Field x])
          ++ remove_first (Field x) (σ !!! l).
Proof.
  induction 1 as [|fieldset l fieldsets locs Hfs _ IH]; intros Hnodup σ added.
  { exists σ. split_and!; [by rewrite orb_false_r|done|by intros []]. }
  apply NoDup_cons in Hnodup as [Hl Hnodup].
  destruct (for_line_listed fieldset σ added l Hfs) as (σ1 & Hline & Hl1 & Ho1).
  destruct (IH Hnodup σ1 true) as (σ' & Hrest & Hother & Hlocs).
  exists σ'. split_and!.
  - cbn [for_fieldset]. rewrite Hline, Hrest.
    by rewrite orb_true_r.
  - intros l' [Hne Hout]%not_elem_of_cons. by rewrite Hother, Ho1.
  - intros [|i] l' Hi; simplify_eq/=.
    + rewrite orb_false_r, <-Hl1. by apply lookup_total_same, Hother.
    + rewrite orb_true_r, (Hlocs i l' Hi). simpl. f_equal.
      apply lookup_total_same, Ho1.
      intros ->. apply Hl. by eapply list_elem_of_lookup_2.
Qed.

Lemma all_names_listed σ fieldsets locs :
  Forall2 listed_fieldset fieldsets locs →
  all_names σ fieldsets = l ← locs; i ← σ !!! l; item_names i.
Proof.
  induction 1 as [|fieldset l fieldsets locs Hfs _ IH]; [done|].
  unfold all_names in *. rewrite !bind_cons, IH. f_equal.
  destruct Hfs as (name & d & -> & Hname & Hd).
  unfold grouping_names. rewrite bind_cons, bind_singleton.
  simpl. rewrite Hd. simpl. by destruct name.
Qed.

Lemma named_once_removed its :
  named_once x its → x ∉ (i ← remove_first (Field x) its; item_names i).
Proof.
  intros [Hcount Hrows] (i & Hx & Hi)%list_elem_of_bind.
  destruct i as [name|names]; simpl in Hx.
  - apply list_elem_of_singleton in Hx as <-.
    destruct (decide (Field x ∈ its)) as [Hin|Hout].
    + apply count_remove_first in Hin. apply count_present in Hi. lia.
    + rewrite remove_first_absent in Hi; done.
  - apply remove_first_subseteq in Hi. by apply (Hrows names).
Qed.

(** The loop on fieldsets of the documented shape. *)
Lemma get_fieldsets_listed fieldsets locs σ :
  fieldsets ≠ [] →
  Forall2 listed_fieldset fieldsets locs →
  NoDup locs →
  (∀ l, l ∈ locs → named_once x (σ !!! l)) →
  ∃ σ' first rest l0 locs',
    get_fieldsets x fieldsets σ = (σ', Return fieldsets)
    ∧ fieldsets = first :: rest
    ∧ locs = l0 :: locs'
    ∧ σ' !!! l0 = Field x :: remove_first (Field x) (σ !!! l0)
    ∧ (∀ l, l ∈ locs' → σ' !!! l = remove_first (Field x) (σ !!! l))
    ∧ (∀ l, l ∉ locs → σ' !! l = σ !! l)
    ∧ head (grouping_names σ' first) = Some x
    ∧ count x (all_names σ' fieldsets) = 1%nat.
Proof.
  intros Hne Hshape Hnodup Honce.
  destruct (for_fieldset_listed fieldsets locs Hshape Hnodup σ false)
    as (σ' & Hloop & Hother & Hlocs).
  destruct Hshape as [|first l0 rest locs' Hfirst Hrest]; [done|].
  assert (σ' !!! l0 = Field x :: remove_first (Field x) (σ !!! l0)) as Hl0.
  { by rewrite (Hlocs 0%nat l0). }
  assert (∀ l, l ∈ locs' → σ' !!! l = remove_first (Field x) (σ !!! l))
    as Hl'.
  { intros l (i & Hi)%list_elem_of_lookup_1. by rewrite (Hlocs (S i) l). }
  exists σ', first, rest, l0, locs'. split_and!; try done.
  - unfold get_fieldsets. by rewrite Hloop.
  - destruct Hfirst as (name & d & -> & Hname & Hd).
    unfold grouping_names. rewrite bind_cons, bind_singleton.
    simpl. rewrite Hd. simpl. rewrite Hl0. by destruct name.
  - rewrite (all_names_listed σ' (first :: rest) (l0 :: locs'))
      by by constructor.
    rewrite bind_cons, count_app, Hl0, bind_cons, count_app. simpl.
    rewrite count_cons, decide_True, count_nil by done.
    rewrite (proj1 (count_absent _ _)).
    2:{ apply named_once_removed, Honce. left. }
    rewrite count_bind_absent; [done|].
    intros l Hl. rewrite Hl' by done.
    apply named_once_removed, Honce. by right.
Qed.

End GetFieldsetsProperties.

(** X23. On fieldsets of the documented shape, each with its own list of
    fields naming the order field at most once and outside rows, the
    fieldsets come back with the order field as first entry of the first
    grouping and nowhere else, the other entries keeping their order; the
    field list name, order, description of the supplied scenario becomes
    order, name, description. *)
Theorem get_fieldsets_order_first (x : string) (fieldsets : list (list line))
    (locs : list loc) (σ : store) :
  (fieldsets ≠ [] →
   Forall2 listed_fieldset fieldsets locs →
   NoDup locs →
   (∀ l, l ∈ locs → named_once x (σ !!! l)) →
   ∃ σ' first rest l0 locs',
     get_fieldsets x fieldsets σ = (σ', Return fieldsets)
     ∧ fieldsets = first :: rest
     ∧ locs = l0 :: locs'
     ∧ σ' !!! l0 = Field x :: remove_first (Field x) (σ !!! l0)
     ∧ (∀ l, l ∈ locs' → σ' !!! l = remove_first (Field x) (σ !!! l))
     ∧ (∀ l, l ∉ locs → σ' !! l = σ !! l)
     ∧ head (grouping_names σ' first) = Some x
     ∧ count x (all_names σ' fieldsets) = 1%nat)
  ∧ ∃ σ',
      get_fieldsets "order" supplied_fieldsets supplied_store
        = (σ', Return supplied_fieldsets)
      ∧ shown_fields σ' (LineDict supplied_options)
        = [Field "order"; Field "name"; Field "description"].
Proof.
  split; [apply get_fieldsets_listed|].
  eexists. split; [vm_compute; reflexivity|]. vm_compute. reflexivity.
Qed.

Lemma get_fieldsets_order_first_witness :
  ∃ σ',
    get_fieldsets "order" supplied_fieldsets supplied_store
      = (σ', Return supplied_fieldsets)
    ∧ σ' !!! 1%positive
      = [Field "order"; Field "name"; Field "description"]
    ∧ count "order" (all_names σ' supplied_fieldsets) = 1%nat.
Proof.
  destruct (proj1 (get_fieldsets_order_first "order" supplied_fieldsets
                     [1%positive] supplied_store))
    as (σ' & first & rest & l0 & locs' & Hget & _ & Hlocs & Hl0 & _ & _ & _
        & Hcount).
  - done.
  - constructor; [|constructor]. exists LineNone, supplied_options. done.
  - apply NoDup_singleton.
  - intros l ->%list_elem_of_singleton. split; [vm_compute; lia|].
    intros names Hin. vm_compute in Hin.
    repeat (apply elem_of_cons in Hin as [Hin|Hin]; [done|]).
    by apply elem_of_nil in Hin.
  - exists σ'. injection Hlocs as <- <-. split_and!; [done| |done].
    rewrite Hl0. reflexivity.
Defined.

Ltac refute_order_first_only :=
  let Hget := fresh "Hget" in
  let Hshape := fresh "Hshape" in
  let Hhead := fresh "Hhead" in
  let Hcount := fresh "Hcount" in
  intros (? & ? & ? & Hget & Hshape & Hhead & Hcount);
  first
    [ discriminate Hshape
    | injection Hshape as <- <-;
      apply (f_equal fst) in Hget; vm_compute in Hget; subst;
      first [ vm_compute in Hcount; discriminate
            | vm_compute in Hhead; discriminate ] ].

Lemma get_fieldsets_order_not_first_only :
  ¬ order_first_only "order" supplied_fieldsets row_store
  ∧ ¬ order_first_only "order" supplied_fieldsets repeated_store
  ∧ ¬ order_first_only "order" empty_first_fieldsets supplied_store
  ∧ ¬ order_first_only "order" shared_fieldsets name_store
  ∧ ¬ order_first_only "order" [] supplied_store.
Proof. split_and!; refute_order_first_only. Qed.

(** What comes back in the first four of these configurations. *)
Lemma get_fieldsets_other_shapes :
  (fst (get_fieldsets "order" supplied_fieldsets row_store)) !!! 1%positive
    = [Field "order"; FieldRow ["order"; "name"]; Field "description"]
  ∧ (fst (get_fieldsets "order" supplied_fieldsets repeated_store))
      !!! 1%positive
    = [Field "order"; Field "order"; Field "name"]
  ∧ (fst (get_fieldsets "order" empty_first_fieldsets supplied_store))
      !!! 1%positive
    = [Field "order"; Field "name"; Field "description"]
  ∧ (fst (get_fieldsets "order" shared_fieldsets name_store)) !!! 1%positive
    = [Field "name"].
Proof. split_and!; vm_compute; reflexivity. Qed.

(** C3. The order field does not always come back exactly once, first
    in the first grouping. With the order field in a row of the second
    grouping, [get_fieldsets] puts it first in the first list and leaves
    the second list as it was, so that the field is shown twice and is
    not removed from the other fieldset; with two groupings holding one
    list object, the second visit removes what the first inserted, and
    no grouping shows the field. *)
Theorem get_fieldsets_row_keeps_order :
  (∃ σ',
     get_fieldsets "order" row_second_fieldsets row_second_store
     = (σ', Return row_second_fieldsets)
     ∧ σ' !!! 1%positive = [Field "order"; Field "name"]
     ∧ σ' !!! 2%positive = [FieldRow ["order"; "x"]; Field "note"]
     ∧ all_names σ' row_second_fieldsets
       = ["order"; "name"; "order"; "x"; "note"]
     ∧ count "order" (all_names σ' row_second_fieldsets) = 2%nat)
  ∧ ¬ order_first_only "order" row_second_fieldsets row_second_store
  ∧ (∃ σ',
       get_fieldsets "order" shared_fieldsets name_store
       = (σ', Return shared_fieldsets)
       ∧ σ' !!! 1%positive = [Field "name"]
       ∧ count "order" (all_names σ' shared_fieldsets) = 0%nat)
  ∧ ¬ order_first_only "order" shared_fieldsets name_store.
Proof.
  split_and!.
  - eexists. split; [vm_compute; reflexivity|].
    split_and!; vm_compute; reflexivity.
  - refute_order_first_only.
  - eexists. split; [vm_compute; reflexivity|].
    split_and!; vm_compute; reflexivity.
  - refute_order_first_only.
Qed.

Section TupleFields.
Variable x : string.
Implicit Types (σ : store) (d : gmap string optval)
  (fieldsets : list (list line)).

Lemma for_line_skipped lines rest σ added :
  Forall skipped lines →
  for_line x (lines ++ rest) σ added = for_line x rest σ added.
Proof.
  induction 1 as [|ln lines Hln _ IH]; [done|].
  unfold skipped in Hln. simpl. by rewrite Hln.
Qed.

Lemma for_fieldset_app fieldsets1 fieldsets2 σ added :
  for_fieldset x (fieldsets1 ++ fieldsets2) σ added
  = match for_fieldset x fieldsets1 σ added with
    | (σ', Return added') => for_fieldset x fieldsets2 σ' added'
    | (σ', Raise e) => (σ', Raise e)
    end.
Proof.
  revert σ added. induction fieldsets1 as [|fieldset fieldsets1 IH];
    intros σ added; [done|].
  simpl. destruct (for_line x fieldset σ added) as [σ' [added'|e]]; [|done].
  apply IH.
Qed.

Lemma visit_line_tuple d t σ added :
  d !! "fields" = Some (VTuple t) →
  visit_line x d σ added = Raise AssertionError.
Proof. intros Hd. unfold visit_line. by rewrite Hd. Qed.

(** The loops reach a grouping whose [fields] is a tuple. *)
Lemma get_fieldsets_tuple_reached fieldsets_before lines_before d t
    lines_after fieldsets_after σ σ1 added :
  for_fieldset x fieldsets_before σ false = (σ1, Return added) →
  Forall skipped lines_before →
  d !! "fields" = Some (VTuple t) →
  get_fieldsets x
    (fieldsets_before
       ++ (lines_before ++ LineDict d :: lines_after) :: fieldsets_after) σ
  = (σ1, Raise AssertionError).
Proof.
  intros Hbefore Hskipped Hd. unfold get_fieldsets.
  rewrite for_fieldset_app, Hbefore. cbn [for_fieldset].
  rewrite for_line_skipped by done. cbn [for_line].
  assert (line_truthy (LineDict d) = true) as ->.
  { simpl. case_bool_decide as Hempty; [|done].
    by rewrite Hempty, lookup_empty in Hd. }
  cbn [negb orb is_dict]. by rewrite (visit_line_tuple d t).
Qed.

(** Groupings of the documented shape with lists of fields are gone
    through without an exception. *)
Lemma for_fieldset_listed_returns fieldsets locs σ added :
  Forall2 listed_fieldset fieldsets locs →
  ∃ σ' added', for_fieldset x fieldsets σ added = (σ', Return added').
Proof.
  intros Hshape. revert σ added.
  induction Hshape as [|fieldset l fieldsets locs Hfs _ IH]; intros σ added.
  { by exists σ, added. }
  destruct (for_line_listed x fieldset σ added l Hfs) as (σ1 & Hline & _).
  destruct (IH σ1 true) as (σ' & added' & Hrest).
  exists σ', added'. cbn [for_fieldset]. by rewrite Hline.
Qed.

End TupleFields.

(** C10. When the loops reach a grouping whose [fields] is a tuple (the
    fieldsets before it were gone through, the lines before it in its
    fieldset skipped), [get_fieldsets] raises [AssertionError] and returns
    no fieldsets; the groupings before it are gone through in particular
    when they have the documented shape with lists of fields. *)
Theorem get_fieldsets_tuple_rejected (x : string)
    (fieldsets_before fieldsets_after : list (list line))
    (lines_before lines_after : list line) (d : gmap string optval)
    (t : list item) (σ : store) :
  Forall skipped lines_before →
  d !! "fields" = Some (VTuple t) →
  let fieldsets :=
    fieldsets_before
      ++ (lines_before ++ LineDict d :: lines_after) :: fieldsets_after in
  (∀ σ1 added,
     for_fieldset x fieldsets_before σ false = (σ1, Return added) →
     get_fieldsets x fieldsets σ = (σ1, Raise AssertionError))
  ∧ (∀ locs,
       Forall2 listed_fieldset fieldsets_before locs →
       ∃ σ1, get_fieldsets x fieldsets σ = (σ1, Raise AssertionError)).
Proof.
  intros Hskipped Hd fieldsets. split.
  - intros σ1 added Hbefore.
    by apply (get_fieldsets_tuple_reached x _ _ d t _ _ σ σ1 added).
  - intros locs Hshape.
    destruct (for_fieldset_listed_returns x fieldsets_before locs σ false
                Hshape) as (σ1 & added & Hbefore).
    exists σ1.
    by apply (get_fieldsets_tuple_reached x _ _ d t _ _ σ σ1 added).
Qed.

Lemma get_fieldsets_tuple_rejected_witness :
  snd (get_fieldsets "order" tuple_second_fieldsets name_store)
  = Raise AssertionError.
Proof.
  destruct (get_fieldsets_tuple_rejected "order"
    [[LineNone; LineDict supplied_options]] [] [LineStr "Notes"] []
    tuple_options [Field "order"; Field "note"] name_store)
    as [_ Hlisted].
  - constructor; [reflexivity|constructor].
  - reflexivity.
  - destruct (Hlisted [1%positive]) as [σ1 Hraise].
    + constructor; [|constructor]. by exists LineNone, supplied_options.
    + unfold tuple_second_fieldsets. simpl app in Hraise. by rewrite Hraise.
Defined.

(* ===================================================================== *)
(** ** Reorder batches: apply *)
(* ===================================================================== *)

Section ApplyProperties.
Implicit Types (st : storage) (batch : ReorderBatch) (r : OrderedRecord)
  (i s : Z).

Lemma assignment_snoc batch p :
  assignment (batch ++ [p]) = <[p.1 := p.2]> (assignment batch).
Proof. unfold assignment. by rewrite foldl_app. Qed.

Lemma assignment_dom batch i :
  is_Some (assignment batch !! i) ↔ i ∈ batch.*1.
Proof.
  induction batch as [|p batch IH] using rev_ind.
  - unfold assignment. simpl. rewrite lookup_empty, elem_of_nil.
    split; [by intros [? ?]|done].
  - rewrite assignment_snoc, fmap_app, elem_of_app, <-IH. simpl.
    rewrite list_elem_of_singleton. destruct (decide (p.1 = i)) as [<-|Hne].
    + rewrite lookup_insert_eq. split; [by right|by eexists].
    + rewrite lookup_insert_ne by done. split; [by left|].
      by intros [?|?].
Qed.

Lemma lookup_writes batch st i :
  foldl write st batch !! i = reordered batch i <$> st !! i.
Proof.
  induction batch as [|p batch IH] using rev_ind.
  - unfold reordered, assignment. simpl. rewrite lookup_empty.
    by destruct (st !! i).
  - rewrite foldl_app. simpl. unfold write at 1, reordered.
    rewrite assignment_snoc. destruct (decide (p.1 = i)) as [<-|Hne].
    + rewrite lookup_alter_eq, lookup_insert_eq, IH.
      destruct (st !! p.1) as [r|]; [|done]. simpl. f_equal.
      unfold reordered. by destruct (assignment batch !! p.1).
    + by rewrite lookup_alter_ne, lookup_insert_ne, IH.
Qed.

Lemma reordered_scope batch i r : scope (reordered batch i r) = scope r.
Proof. unfold reordered. by destruct (assignment batch !! i). Qed.

Lemma reordered_idemp batch i r :
  reordered batch i (reordered batch i r) = reordered batch i r.
Proof. unfold reordered. by destruct (assignment batch !! i). Qed.

Lemma reordered_order batch i r :
  i ∈ batch.*1 → order (reordered batch i r) = assignment batch !! i.
Proof.
  intros [o Ho]%assignment_dom. unfold reordered. by rewrite Ho.
Qed.

(** A batch validates when its identifiers exist and share a scope. *)
Lemma validates_true st batch :
  validates st batch = true
  ↔ ∃ s, ∀ i, i ∈ batch.*1 → ∃ r, st !! i = Some r ∧ scope r = s.
Proof.
  unfold validates. destruct batch as [|first batch].
  { split; [|done]. intros _. exists 0. by intros i ?%elem_of_nil. }
  split.
  - destruct (st !! first.1) as [r0|] eqn:Hfirst; [|done].
    intros Hall. exists (scope r0). intros i (p & -> & Hp)%list_elem_of_fmap.
    rewrite forallb_forall in Hall. apply list_elem_of_In, Hall in Hp.
    destruct (st !! p.1) as [r|]; [|done]. apply bool_decide_eq_true in Hp.
    eauto.
  - intros (s & Hall).
    destruct (Hall first.1) as (r0 & -> & Hr0); [by left|].
    apply forallb_forall. intros p Hp%list_elem_of_In.
    destruct (Hall p.1) as (r & -> & Hr); [by apply list_elem_of_fmap_2|].
    apply bool_decide_eq_true. congruence.
Qed.

Lemma validates_writes st batch batch' :
  validates (foldl write st batch') batch = validates st batch.
Proof.
  apply eq_true_iff_eq. rewrite !validates_true.
  split; intros (s & Hall); exists s; intros i Hi;
    destruct (Hall i Hi) as (r & Hr & Hs).
  - rewrite lookup_writes in Hr. destruct (st !! i) as [r'|]; [|done].
    simplify_eq/=. exists r'. by rewrite reordered_scope.
  - rewrite lookup_writes, Hr. simpl. eexists. split; [done|].
    by rewrite reordered_scope.
Qed.

Lemma writes_idemp st batch :
  foldl write (foldl write st batch) batch = foldl write st batch.
Proof.
  apply map_eq. intros i. rewrite !lookup_writes.
  destruct (st !! i) as [r|]; [|done]. simpl. by rewrite reordered_idemp.
Qed.

(** C4. A batch with an identifier that does not exist, or with two
    identifiers of different scopes, fails with [ValidationError] and
    leaves the store as it was. *)
Theorem apply_invalid_unchanged st batch :
  (∃ i, i ∈ batch.*1
        ∧ (st !! i = None
           ∨ ∃ j ri rj, j ∈ batch.*1 ∧ st !! i = Some ri ∧ st !! j = Some rj
                        ∧ scope ri ≠ scope rj)) →
  apply batch st = (ValidationError, st).
Proof.
  intros (i & Hi & Hbad). unfold apply.
  destruct (validates st batch) eqn:Hvalid; [|done].
  apply validates_true in Hvalid as (s & Hall).
  destruct (Hall i Hi) as (r & Hr & Hs).
  destruct Hbad as [Hnone|(j & ri & rj & Hj & Hri & Hrj & Hne)].
  - congruence.
  - destruct (Hall j Hj) as (r' & Hr' & Hs'). congruence.
Qed.

(** C8. A batch that was applied with success applies again with success
    and leaves the same store, hence the same ordered view of any scope. *)
Theorem apply_idempotent {Request QuerySet : Type}
    (self : SortableChangeList) (request : Request) (queryset : QuerySet)
    (nulls_first : bool) st st' batch :
  apply batch st = (Success, st') →
  apply batch st' = (Success, st')
  ∧ ∀ s, ordered_view self request queryset nulls_first
           (apply batch st').2 s
         = ordered_view self request queryset nulls_first st' s.
Proof.
  unfold apply. destruct (validates st batch) eqn:Hvalid; [|done].
  intros [= <-]. rewrite validates_writes, Hvalid, writes_idemp. done.
Qed.

End ApplyProperties.

(* ===================================================================== *)
(** ** Reorder batches: the ordered view *)
(* ===================================================================== *)

Section SortedLists.
Context {A B : Type}.

Lemma StronglySorted_fmap_elem (f : A → B) (R1 : relation A)
    (R2 : relation B) (l : list A) :
  (∀ a b, a ∈ l → b ∈ l → R1 a b → R2 (f a) (f b)) →
  StronglySorted R1 l → StronglySorted R2 (f <$> l).
Proof.
  intros Hmono Hsorted. induction Hsorted as [|a l _ IH Hall]; csimpl.
  { constructor. }
  constructor.
  - apply IH. intros b c Hb Hc. apply Hmono; by right.
  - rewrite Forall_fmap. rewrite Forall_forall in Hall |- *.
    intros b Hb. simpl. apply Hmono; [left|by right|by apply Hall].
Qed.

Lemma StronglySorted_filter (R : relation A) (P : A → Prop)
    `{∀ a, Decision (P a)} (l : list A) :
  StronglySorted R l → StronglySorted R (filter P l).
Proof.
  induction 1 as [|a l _ IH Hall]; [constructor|].
  rewrite filter_cons. destruct (decide (P a)); [|done].
  constructor; [done|]. rewrite Forall_forall in Hall |- *.
  intros b [_ Hb]%list_elem_of_filter. by apply Hall.
Qed.

Lemma filter_fmap (f : A → B) (P : B → Prop) `{∀ b, Decision (P b)}
    (l : list A) :
  filter P (f <$> l) = f <$> filter (λ a, P (f a)) l.
Proof.
  induction l as [|a l IH]; [done|]. csimpl.
  rewrite !filter_cons, IH. by destruct (decide (P (f a))).
Qed.

Lemma filter_all (P : A → Prop) `{∀ a, Decision (P a)} (l : list A) :
  (∀ a, a ∈ l → P a) → filter P l = l.
Proof.
  induction l as [|a l IH]; [done|]. intros Hall.
  rewrite filter_cons_True by (apply Hall; left).
  f_equal. apply IH. intros b Hb. apply Hall. by right.
Qed.

End SortedLists.

Global Instance batch_le_total : Total batch_le.
Proof. intros [i m] [j n]. unfold batch_le. simpl. lia. Qed.

Global Instance batch_le_trans : Transitive batch_le.
Proof. intros [i m] [j n] [k o]. unfold batch_le. simpl. lia. Qed.

Section ViewProperties.
Context {Request QuerySet : Type}.
Variables (self : SortableChangeList) (request : Request)
  (queryset : QuerySet) (nulls_first : bool).
Implicit Types (st : storage) (batch : ReorderBatch)
  (row : Z * OrderedRecord) (terms : list (direction * string)).

Abbreviation compare_term' := (compare_term self nulls_first).
Abbreviation compare_rows' := (compare_rows self nulls_first).
Abbreviation row_le' := (row_le self nulls_first).

Lemma compare_term_antisym term row1 row2 :
  compare_term' term row1 row2 = CompOpp (compare_term' term row2 row1).
Proof.
  assert (∀ a b, compare_nullable nulls_first a b
                 = CompOpp (compare_nullable nulls_first b a)) as Hopp.
  { intros [m|] [n|]; simpl; try by destruct nulls_first.
    apply Z.compare_antisym. }
  unfold compare_term. destruct term.1; rewrite (Hopp (column _ _ row1));
    by rewrite ?CompOpp_involutive.
Qed.

Lemma compare_rows_antisym terms row1 row2 :
  compare_rows' terms row1 row2 = CompOpp (compare_rows' terms row2 row1).
Proof.
  induction terms as [|term terms IH]; [done|]. simpl.
  rewrite (compare_term_antisym term row1 row2).
  by destruct (compare_term' term row2 row1).
Qed.

Lemma compare_term_compose term row1 row2 row3 :
  match compare_term' term row1 row2, compare_term' term row2 row3 with
  | Eq, c | c, Eq => compare_term' term row1 row3 = c
  | Lt, Lt => compare_term' term row1 row3 = Lt
  | Gt, Gt => compare_term' term row1 row3 = Gt
  | _, _ => True
  end.
Proof.
  unfold compare_term.
  destruct (column self term.2 row1) as [m|],
    (column self term.2 row2) as [n|],
    (column self term.2 row3) as [o|], term.1, nulls_first; simpl;
    try done;
    try (destruct (Z.compare_spec m n); simpl; try done);
    try (destruct (Z.compare_spec n o); simpl; try done);
    try (destruct (Z.compare_spec m o); simpl; try done);
    try lia.
Qed.

Global Instance row_le_total terms : Total (row_le' terms).
Proof.
  intros row1 row2. unfold row_le.
  rewrite (compare_rows_antisym terms row1 row2).
  destruct (compare_rows' terms row2 row1); simpl; auto.
Qed.

Global Instance row_le_trans terms : Transitive (row_le' terms).
Proof.
  intros row1 row2 row3. unfold row_le.
  induction terms as [|term terms IH]; [done|]. simpl.
  pose proof (compare_term_compose term row1 row2 row3) as Hcompose.
  destruct (compare_term' term row1 row2), (compare_term' term row2 row3);
    try done; rewrite Hcompose; auto.
Qed.

End ViewProperties.

Section ViewAfterApply.
Context {Request QuerySet : Type}.
Variables (self : SortableChangeList) (request : Request)
  (queryset : QuerySet) (nulls_first : bool).
Hypothesis Hnames : plain_names self.
Implicit Types (st : storage) (batch : ReorderBatch)
  (row : Z * OrderedRecord).

Abbreviation view := (ordered_view self request queryset nulls_first).
Abbreviation view_le :=
  (row_le self nulls_first (order_term <$> get_ordering self request queryset)).

Lemma column_sortable row :
  column self (sortable (model_admin self)) row = order row.2.
Proof.
  destruct Hnames as [_ Hkey]. unfold column.
  by rewrite decide_False, decide_True.
Qed.

Lemma column_pk row : column self (pk_name (model self)) row = Some row.1.
Proof. unfold column. by rewrite decide_True. Qed.

Lemma view_le_ordered row1 row2 m n :
  order row1.2 = Some m → order row2.2 = Some n →
  view_le row1 row2 → batch_le (row1.1, m) (row2.1, n).
Proof.
  intros Hm Hn. rewrite get_ordering_terms by apply Hnames.
  unfold row_le. cbn [compare_rows]. unfold compare_term. cbn [fst snd].
  rewrite !column_sortable, !column_pk, Hm, Hn.
  unfold batch_le. simpl.
  destruct (Z.compare_spec m n); simpl; [|lia|done].
  destruct (Z.compare_spec row1.1 row2.1); simpl; [lia|done|lia].
Qed.

Lemma elem_of_view st s row :
  row ∈ view st s ↔ st !! row.1 = Some row.2 ∧ scope row.2 = s.
Proof.
  unfold ordered_view. rewrite merge_sort_Permutation.
  rewrite list_elem_of_filter, elem_of_map_to_list'. tauto.
Qed.

Lemma NoDup_view_keys st s : NoDup (view st s).*1.
Proof.
  unfold ordered_view. rewrite merge_sort_Permutation.
  eapply sublist_NoDup; [apply (NoDup_fst_map_to_list st)|].
  apply fmap_sublist, sublist_filter.
Qed.

Lemma asked_before_antisym batch i j :
  asked_before batch i j → asked_before batch j i → i = j.
Proof.
  intros (m & n & Hm & Hn & Hle) (n' & m' & Hn' & Hm' & Hle').
  simplify_eq. unfold batch_le in *. simpl in *. lia.
Qed.

Lemma batch_sequence_sorted batch :
  StronglySorted (asked_before batch) (batch_sequence batch).
Proof.
  unfold batch_sequence.
  apply StronglySorted_fmap_elem with (R1 := batch_le).
  - intros [i m] [j n] Hi Hj Hle.
    rewrite merge_sort_Permutation, elem_of_map_to_list in Hi, Hj.
    by exists m, n.
  - apply StronglySorted_merge_sort; apply _.
Qed.

Lemma elem_of_batch_sequence batch i :
  i ∈ batch_sequence batch ↔ i ∈ batch.*1.
Proof.
  unfold batch_sequence. rewrite list_elem_of_fmap. split.
  - intros ([j m] & -> & Hin).
    rewrite merge_sort_Permutation, elem_of_map_to_list in Hin.
    apply assignment_dom. by exists m.
  - intros [m Hm]%assignment_dom. exists (i, m). split; [done|].
    by rewrite merge_sort_Permutation, elem_of_map_to_list.
Qed.

Lemma NoDup_batch_sequence batch : NoDup (batch_sequence batch).
Proof.
  unfold batch_sequence. rewrite merge_sort_Permutation.
  apply NoDup_fst_map_to_list.
Qed.

(** The view of a scope after a successful apply, on the records of the
    batch and on a scope that the batch covers. *)
Lemma view_after_apply st st' batch s :
  apply batch st = (Success, st') →
  (∀ i r, i ∈ batch.*1 → st !! i = Some r → scope r = s) →
  filter (λ i, i ∈ batch.*1) (view st' s).*1 = batch_sequence batch
  ∧ ((∀ i r, st !! i = Some r → scope r = s → i ∈ batch.*1) →
     (view st' s).*1 = batch_sequence batch).
Proof.
  unfold apply. destruct (validates st batch) eqn:Hvalid; [|done].
  intros [= <-] Hscope.
  apply validates_true in Hvalid as (s0 & Hexist).
  set (st' := foldl write st batch).
  assert (∀ row, row ∈ view st' s → row.1 ∈ batch.*1 →
                 order row.2 = assignment batch !! row.1) as Horder.
  { intros [i r] [Hr _]%elem_of_view Hi. simpl in *.
    unfold st' in Hr. rewrite lookup_writes in Hr.
    destruct (st !! i) as [r0|]; [|done]. simplify_eq/=.
    by apply reordered_order. }
  assert (filter (λ i, i ∈ batch.*1) (view st' s).*1 = batch_sequence batch)
    as Hfilter.
  { apply (StronglySorted_unique_strong (asked_before batch)).
    - intros i j _ _. apply asked_before_antisym.
    - rewrite filter_fmap.
      apply StronglySorted_fmap_elem with (R1 := view_le).
      + intros row1 row2 [Hi1 Hrow1]%list_elem_of_filter
          [Hi2 Hrow2]%list_elem_of_filter Hle.
        destruct (proj2 (assignment_dom batch row1.1) Hi1) as [m Hm].
        destruct (proj2 (assignment_dom batch row2.1) Hi2) as [n Hn].
        exists m, n. split_and!; [done..|].
        apply view_le_ordered; [|  |done].
        * by rewrite Horder.
        * by rewrite Horder.
      + apply StronglySorted_filter.
        apply StronglySorted_merge_sort; apply _.
    - apply batch_sequence_sorted.
    - apply NoDup_Permutation.
      + apply NoDup_filter, NoDup_view_keys.
      + apply NoDup_batch_sequence.
      + intros i. rewrite elem_of_batch_sequence, list_elem_of_filter.
        split; [tauto|]. intros Hi. split; [done|].
        destruct (Hexist i Hi) as (r & Hr & _).
        apply list_elem_of_fmap. exists (i, reordered batch i r).
        split; [done|]. apply elem_of_view. simpl. split.
        * unfold st'. by rewrite lookup_writes, Hr.
        * rewrite reordered_scope. by apply (Hscope i). }
  split; [done|]. intros Hcover. rewrite <-Hfilter. symmetry.
  apply filter_all. intros i ([j r] & -> & [Hr Hs]%elem_of_view)%list_elem_of_fmap.
  simpl in *. unfold st' in Hr. rewrite lookup_writes in Hr.
  destruct (st !! j) as [r0|] eqn:Hr0; [|done]. simplify_eq/=.
  apply (Hcover j r0 Hr0). by rewrite reordered_scope.
Qed.

End ViewAfterApply.

(** C5. After a successful apply of a batch on a scope, the ordered view
    of the scope shows the records of the batch in the sequence of their
    new orders, equal orders by descending identifier; when the batch
    covers the scope this is the whole view. For A, B, C with orders 1, 2,
    3 the batch (C,1), (A,2), (B,3) gives the view C, A, B. *)
Theorem apply_then_ordered_view {Request QuerySet : Type}
    (self : SortableChangeList) (request : Request) (queryset : QuerySet)
    (nulls_first : bool) (st st' : storage) (batch : ReorderBatch) (s : Z) :
  (plain_names self →
   apply batch st = (Success, st') →
   (∀ i r, i ∈ batch.*1 → st !! i = Some r → scope r = s) →
   filter (λ i, i ∈ batch.*1)
     (ordered_view self request queryset nulls_first st' s).*1
   = batch_sequence batch
   ∧ ((∀ i r, st !! i = Some r → scope r = s → i ∈ batch.*1) →
      (ordered_view self request queryset nulls_first st' s).*1
      = batch_sequence batch))
  ∧ (apply abc_batch abc_storage).1 = Success
  ∧ (ordered_view order_changelist request queryset nulls_first
       (apply abc_batch abc_storage).2 0).*1 = [3; 1; 2].
Proof.
  split_and!.
  - intros Hnames Happly Hscope.
    by apply (view_after_apply self request queryset nulls_first Hnames st).
  - reflexivity.
  - destruct nulls_first; vm_compute; reflexivity.
Qed.

Lemma plain_names_order : plain_names order_changelist.
Proof. split; [intros rest|]; simpl; discriminate. Qed.

Lemma apply_then_ordered_view_witness :
  (ordered_view order_changelist tt tt true
     (apply abc_batch abc_storage).2 0).*1
  = batch_sequence abc_batch.
Proof.
  destruct (proj1 (apply_then_ordered_view order_changelist tt tt true
                     abc_storage (apply abc_batch abc_storage).2
                     abc_batch 0)) as [_ Hcover].
  - apply plain_names_order.
  - reflexivity.
  - intros i r _. unfold abc_storage.
    intros Hr%elem_of_map_to_list. vm_compute in Hr.
    repeat (apply elem_of_cons in Hr as [Hr|Hr]; [by simplify_eq|]).
    by apply elem_of_nil in Hr.
  - apply Hcover. intros i r Hr%elem_of_map_to_list _. vm_compute in Hr.
    repeat (apply elem_of_cons in Hr as [Hr|Hr];
            [injection Hr as -> _; vm_compute; set_solver|]).
    by apply elem_of_nil in Hr.
Defined.

Lemma apply_invalid_unchanged_witness :
  apply stray_batch abc_storage = (ValidationError, abc_storage).
Proof.
  apply apply_invalid_unchanged. exists 9. split.
  - right. left.
  - left. reflexivity.
Defined.

Lemma apply_idempotent_witness :
  apply abc_batch (apply abc_batch abc_storage).2
  = (Success, (apply abc_batch abc_storage).2).
Proof.
  apply (proj1 (apply_idempotent order_changelist tt tt true abc_storage
                  (apply abc_batch abc_storage).2 abc_batch eq_refl)).
Defined.

(* ===================================================================== *)
(** ** Further properties of get_fieldsets *)
(* ===================================================================== *)

Section GetFieldsetsFrame.
Variable x : string.
Implicit Types (σ : store) (d : gmap string optval) (l : loc)
  (fieldsets : list (list line)) (its : list item).

(** The entries of a list other than the order field. *)
Abbreviation others its := (filter (λ i, i ≠ Field x) its).

Lemma others_remove_first its : others (remove_first (Field x) its) = others its.
Proof.
  induction its as [|i its IH]; [done|]. simpl.
  destruct (decide (i = Field x)) as [->|Hne].
  - by rewrite filter_cons_False by (by intros ?).
  - by rewrite !filter_cons_True, IH.
Qed.

Lemma others_cons its : others (Field x :: its) = others its.
Proof. by rewrite filter_cons_False by (by intros ?). Qed.

Lemma visit_line_others d σ added σ' added' break l :
  visit_line x d σ added = Return (σ', added', break) →
  others (σ' !!! l) = others (σ !!! l).
Proof.
  unfold visit_line. destruct (default VNone (d !! "fields")) as [|t|l0];
    [done..|].
  assert (∀ σ0 its, others its = others (σ0 !!! l0) →
            others (<[l0 := its]> σ0 !!! l) = others (σ0 !!! l)) as Hins.
  { intros σ0 its Hits. destruct (decide (l0 = l)) as [->|Hne].
    - by rewrite lookup_total_insert_eq.
    - by rewrite lookup_total_insert_ne. }
  case_bool_decide; destruct added; simpl; intros [= <- <- <-];
    rewrite ?Hins; try done;
    rewrite ?others_cons, ?lookup_total_insert_eq, ?others_remove_first;
    try done.
Qed.

Lemma for_line_others lines σ added l :
  others ((for_line x lines σ added).1 !!! l) = others (σ !!! l).
Proof.
  revert σ added. induction lines as [|ln lines IH]; intros σ added; [done|].
  cbn [for_line]. destruct (negb (line_truthy ln) || negb (is_dict ln));
    [apply IH|].
  destruct ln as [| |d]; [apply IH..|].
  destruct (visit_line x d σ added) as [[[σ' added'] break]|e] eqn:Hvisit;
    [|done].
  destruct break; simpl.
  - by eapply visit_line_others.
  - rewrite IH. by eapply visit_line_others.
Qed.

Lemma for_fieldset_others fieldsets σ added l :
  others ((for_fieldset x fieldsets σ added).1 !!! l) = others (σ !!! l).
Proof.
  revert σ added. induction fieldsets as [|fieldset fieldsets IH];
    intros σ added; [done|].
  cbn [for_fieldset]. pose proof (for_line_others fieldset σ added l) as Hline.
  destruct (for_line x fieldset σ added) as [σ' [added'|e]]; simpl in *.
  - by rewrite IH.
  - done.
Qed.

End GetFieldsetsFrame.

(** X1. Whatever the configuration, and whether [get_fieldsets] returns or
    raises, every list keeps its entries other than the order field, each
    as often as before and in the same order. *)
Theorem get_fieldsets_keeps_other_entries (x : string)
    (fieldsets : list (list line)) (σ : store) (l : loc) :
  filter (λ i, i ≠ Field x) ((get_fieldsets x fieldsets σ).1 !!! l)
  = filter (λ i, i ≠ Field x) (σ !!! l).
Proof.
  unfold get_fieldsets.
  pose proof (for_fieldset_others x fieldsets σ false l) as Hloop.
  by destruct (for_fieldset x fieldsets σ false) as [σ' [added|e]].
Qed.

Section GetFieldsetsAgain.
Variable x : string.
Implicit Types (σ : store) (d : gmap string optval) (l : loc)
  (fieldsets : list (list line)).

Lemma get_fieldsets_twice fieldsets l0 locs σ :
  Forall2 listed_fieldset fieldsets (l0 :: locs) →
  NoDup (l0 :: locs) →
  (∀ l, l ∈ locs → (count (Field x) (σ !!! l) ≤ 1)%nat) →
  ∃ σ1 σ2,
    get_fieldsets x fieldsets σ = (σ1, Return fieldsets)
    ∧ get_fieldsets x fieldsets σ1 = (σ2, Return fieldsets)
    ∧ ∀ l, σ2 !!! l = σ1 !!! l.
Proof.
  intros Hshape Hnodup Honce.
  destruct (for_fieldset_listed x fieldsets (l0 :: locs) Hshape Hnodup σ false)
    as (σ1 & Hloop1 & Hother1 & Hlocs1).
  destruct (for_fieldset_listed x fieldsets (l0 :: locs) Hshape Hnodup σ1
              false) as (σ2 & Hloop2 & Hother2 & Hlocs2).
  exists σ1, σ2. unfold get_fieldsets. rewrite Hloop1, Hloop2.
  split_and!; [done..|]. intros l.
  destruct (decide (l ∈ l0 :: locs)) as [Hin|Hout].
  - apply list_elem_of_lookup_1 in Hin as [i Hi].
    rewrite (Hlocs2 i l Hi), (Hlocs1 i l Hi). destruct i as [|i]; simpl.
    + by rewrite decide_True.
    + apply remove_first_absent.
      assert (l ∈ locs) as Hl by (by eapply list_elem_of_lookup_2).
      specialize (Honce l Hl).
      destruct (decide (Field x ∈ σ !!! l)) as [Hx|Hx].
      * apply count_remove_first in Hx.
        apply (proj2 (count_absent _ _)). lia.
      * by rewrite remove_first_absent.
  - by apply lookup_total_same, Hother2.
Qed.

Lemma visit_line_no_fields d σ added :
  default VNone (d !! "fields") = VNone →
  visit_line x d σ added = Raise TypeError.
Proof. intros Hd. unfold visit_line. by rewrite Hd. Qed.

Lemma get_fieldsets_no_fields_reached fieldsets_before lines_before d
    lines_after fieldsets_after σ σ1 added :
  for_fieldset x fieldsets_before σ false = (σ1, Return added) →
  Forall skipped lines_before →
  d ≠ ∅ →
  default VNone (d !! "fields") = VNone →
  get_fieldsets x
    (fieldsets_before
       ++ (lines_before ++ LineDict d :: lines_after) :: fieldsets_after) σ
  = (σ1, Raise TypeError).
Proof.
  intros Hbefore Hskipped Hne Hd. unfold get_fieldsets.
  rewrite for_fieldset_app, Hbefore. cbn [for_fieldset].
  rewrite for_line_skipped by done. cbn [for_line].
  assert (line_truthy (LineDict d) = true) as ->.
  { simpl. by rewrite bool_decide_eq_false_2. }
  cbn [negb orb is_dict]. by rewrite visit_line_no_fields.
Qed.

Lemma for_line_break lines_before d l lines_after σ :
  Forall skipped lines_before →
  d !! "fields" = Some (VList l) →
  for_line x (lines_before ++ LineDict d :: lines_after) σ false
  = for_line x [LineDict d] σ false.
Proof.
  intros Hskipped Hd. rewrite for_line_skipped by done. cbn [for_line].
  assert (line_truthy (LineDict d) = true) as ->.
  { simpl. case_bool_decide as Hempty; [|done].
    by rewrite Hempty, lookup_empty in Hd. }
  cbn [negb orb is_dict].
  destruct (visit_line_list x d σ false l Hd) as (σ' & -> & _). done.
Qed.

End GetFieldsetsAgain.

(** X2. On fieldsets of the documented shape, each with its own list, a
    second call of [get_fieldsets] changes nothing any more, provided the
    groupings after the first name the order field at most once. *)
Theorem get_fieldsets_stable_on_repeat (x : string)
    (fieldsets : list (list line)) (l0 : loc) (locs : list loc) (σ : store) :
  Forall2 listed_fieldset fieldsets (l0 :: locs) →
  NoDup (l0 :: locs) →
  (∀ l, l ∈ locs → (count (Field x) (σ !!! l) ≤ 1)%nat) →
  ∃ σ1 σ2,
    get_fieldsets x fieldsets σ = (σ1, Return fieldsets)
    ∧ get_fieldsets x fieldsets σ1 = (σ2, Return fieldsets)
    ∧ ∀ l, σ2 !!! l = σ1 !!! l.
Proof. apply get_fieldsets_twice. Qed.

Lemma get_fieldsets_stable_on_repeat_witness :
  ∃ σ1 σ2,
    get_fieldsets "order" supplied_fieldsets supplied_store
      = (σ1, Return supplied_fieldsets)
    ∧ get_fieldsets "order" supplied_fieldsets σ1
      = (σ2, Return supplied_fieldsets)
    ∧ σ2 !!! 1%positive = σ1 !!! 1%positive.
Proof.
  destruct (get_fieldsets_stable_on_repeat "order" supplied_fieldsets
              1%positive [] supplied_store) as (σ1 & σ2 & H1 & H2 & Hsame).
  - constructor; [|constructor]. by exists LineNone, supplied_options.
  - apply NoDup_singleton.
  - intros l Hl. by apply elem_of_nil in Hl.
  - exists σ1, σ2. split_and!; [exact H1|exact H2|apply Hsame].
Defined.

(** X3. When the loops reach a non-empty option dict without a [fields]
    entry (or with [None] under it), [get_fieldsets] raises [TypeError]
    and returns no fieldsets. *)
Theorem get_fieldsets_missing_fields_TypeError (x : string)
    (fieldsets_before fieldsets_after : list (list line))
    (lines_before lines_after : list line) (d : gmap string optval)
    (σ : store) :
  Forall skipped lines_before →
  d ≠ ∅ →
  default VNone (d !! "fields") = VNone →
  let fieldsets :=
    fieldsets_before
      ++ (lines_before ++ LineDict d :: lines_after) :: fieldsets_after in
  (∀ σ1 added,
     for_fieldset x fieldsets_before σ false = (σ1, Return added) →
     get_fieldsets x fieldsets σ = (σ1, Raise TypeError))
  ∧ (∀ locs,
       Forall2 listed_fieldset fieldsets_before locs →
       ∃ σ1, get_fieldsets x fieldsets σ = (σ1, Raise TypeError)).
Proof.
  intros Hskipped Hne Hd fieldsets. split.
  - intros σ1 added Hbefore.
    by apply (get_fieldsets_no_fields_reached x _ _ d _ _ σ σ1 added).
  - intros locs Hshape.
    destruct (for_fieldset_listed_returns x fieldsets_before locs σ false
                Hshape) as (σ1 & added & Hbefore).
    exists σ1.
    by apply (get_fieldsets_no_fields_reached x _ _ d _ _ σ σ1 added).
Qed.

Lemma get_fieldsets_missing_fields_TypeError_witness :
  snd (get_fieldsets "order" none_second_fieldsets name_store)
  = Raise TypeError.
Proof.
  destruct (get_fieldsets_missing_fields_TypeError "order"
    [[LineNone; LineDict supplied_options]] [] [LineStr "Notes"] []
    none_options name_store) as [_ Hlisted].
  - constructor; [reflexivity|constructor].
  - unfold none_options. intros Hempty.
    apply (f_equal (λ m : gmap string optval, m !! "fields")) in Hempty.
    by rewrite lookup_singleton_eq, lookup_empty in Hempty.
  - reflexivity.
  - destruct (Hlisted [1%positive]) as [σ1 Hraise].
    + constructor; [|constructor]. by exists LineNone, supplied_options.
    + unfold none_second_fieldsets. simpl app in Hraise. by rewrite Hraise.
Defined.

(** X4. Once the order field is put first in a list, the [break] leaves
    the rest of that fieldset unread: the loops go on as if the fieldset
    ended with that dict. *)
Theorem get_fieldsets_break_skips_rest (x : string)
    (lines_before lines_after : list line) (d : gmap string optval) (l : loc)
    (fieldsets_after : list (list line)) (σ : store) :
  Forall skipped lines_before →
  d !! "fields" = Some (VList l) →
  for_fieldset x
    ((lines_before ++ LineDict d :: lines_after) :: fieldsets_after) σ false
  = for_fieldset x ([LineDict d] :: fieldsets_after) σ false.
Proof.
  intros Hskipped Hd. cbn [for_fieldset].
  by rewrite (for_line_break x lines_before d l lines_after).
Qed.

Lemma get_fieldsets_break_skips_rest_witness :
  snd (get_fieldsets "order" two_dict_fieldsets supplied_store)
  = Return two_dict_fieldsets.
Proof.
  pose proof (get_fieldsets_break_skips_rest "order" [LineNone]
    [LineDict tuple_options] supplied_options 1%positive [] supplied_store)
    as Hbreak.
  unfold get_fieldsets, two_dict_fieldsets. simpl app in Hbreak.
  rewrite Hbreak; [reflexivity| |reflexivity].
  constructor; [reflexivity|constructor].
Defined.

(* ===================================================================== *)
(** ** Further properties of the constructors *)
(* ===================================================================== *)

Section WithMember.
Implicit Types (s : pyseq) (x : string).

Lemma with_member_truthy x s : seq_truthy (with_member x s) = true.
Proof.
  unfold with_member. case_bool_decide as Hin.
  - destruct s as [|xs|xs]; simpl in *;
      [by apply elem_of_nil in Hin|..];
      case_bool_decide; subst; try done; by apply elem_of_nil in Hin.
  - simpl. case_bool_decide as Hnil; [|done].
    by destruct (items s).
Qed.

Lemma with_member_fixed x s : x ∈ items s → with_member x s = s.
Proof. intros Hin. unfold with_member. by rewrite bool_decide_eq_true_2. Qed.

Lemma with_member_idemp x s :
  with_member x (with_member x s) = with_member x s.
Proof. apply with_member_fixed, with_member_elem. Qed.

Lemma or_empty_truthy s : seq_truthy s = true → or_empty s = s.
Proof. intros Hs. unfold or_empty. by rewrite Hs. Qed.

Lemma with_member_items x s :
  items (with_member x s)
  = items s ++ (if bool_decide (x ∈ items s) then [] else [x]).
Proof.
  unfold with_member. case_bool_decide; [by rewrite app_nil_r|done].
Qed.

Lemma falsy_items s : seq_truthy s = false → items s = [].
Proof.
  destruct s as [|xs|xs]; simpl; try done;
    by case_bool_decide.
Qed.

End WithMember.

(** X5. Constructing a [SortableModelAdmin] twice is the same as once:
    [__init__] run on its own result returns that result. *)
Theorem init_idempotent (self self' : SortableModelAdmin) :
  Admin.__init__ self = Return self' →
  Admin.__init__ self' = Return self'.
Proof.
  rewrite init_returns. intros [= <-]. rewrite init_returns. simpl.
  f_equal. f_equal.
  - destruct (seq_truthy (list_display self)) eqn:Hld.
    + by rewrite with_member_truthy, with_member_idemp.
    + by rewrite Hld.
  - by rewrite or_empty_truthy, with_member_idemp
      by apply with_member_truthy.
  - by rewrite or_empty_truthy, with_member_idemp
      by apply with_member_truthy.
Qed.

Lemma init_idempotent_witness :
  ∃ self', Admin.__init__ order_admin = Return self'
           ∧ Admin.__init__ self' = Return self'.
Proof.
  eexists. split; [reflexivity|].
  apply (init_idempotent order_admin). reflexivity.
Defined.

(** X6. [__init__] of a [SortableModelAdmin] drops and reorders nothing
    that was configured in [list_display], [list_editable] and [exclude]:
    each comes back with at most the order field appended at its end;
    the configured [ordering] is replaced by the order field alone. *)
Theorem init_keeps_configured_entries (self : SortableModelAdmin) :
  ∃ self',
    Admin.__init__ self = Return self'
    ∧ Admin.ordering self' = SeqTuple [Admin.sortable self]
    ∧ items (list_display self')
      = items (list_display self)
        ++ (if seq_truthy (list_display self)
               && negb (bool_decide
                          (Admin.sortable self ∈ items (list_display self)))
            then [Admin.sortable self] else [])
    ∧ items (list_editable self')
      = items (list_editable self)
        ++ (if bool_decide (Admin.sortable self ∈ items (list_editable self))
            then [] else [Admin.sortable self])
    ∧ items (exclude self')
      = items (exclude self)
        ++ (if bool_decide (Admin.sortable self ∈ items (exclude self))
            then [] else [Admin.sortable self]).
Proof.
  eexists. split; [apply init_returns|]. simpl. split_and!.
  - done.
  - destruct (seq_truthy (list_display self)) eqn:Hld; simpl.
    + rewrite with_member_items. by case_bool_decide.
    + by rewrite app_nil_r.
  - by rewrite with_member_items, items_or_empty.
  - by rewrite with_member_items, items_or_empty.
Qed.

Section TabularInit.
Implicit Types (self : Tabular.SortableTabularInlineBase).

Lemma tabular_init_returns self :
  Tabular.__init__ self = Return
    {| Tabular.sortable := Tabular.sortable self;
       Tabular.ordering := SeqTuple [Tabular.sortable self];
       Tabular.fields :=
         if seq_truthy (Tabular.fields self)
         then with_member (Tabular.sortable self) (Tabular.fields self)
         else SeqList [] |}.
Proof.
  destruct self as [x ord fs]. unfold Tabular.__init__, with_member. simpl.
  destruct fs as [|xs|xs]; simpl; try done;
    unfold or_empty; simpl;
    case_bool_decide; simpl; try done;
    case_bool_decide; simpl; try done;
    case_bool_decide; simpl; try done.
Qed.

End TabularInit.

(** X7. [__init__] of a sortable tabular inline puts the order field in
    [fields] exactly when [fields] was configured non-empty, then at the
    end and only if absent; an unset or empty [fields] becomes the empty
    list, so that [fields] is never [None] afterwards. Run on its own
    result it changes nothing. *)
Theorem tabular_init_fields (self : Tabular.SortableTabularInlineBase) :
  ∃ self',
    Tabular.__init__ self = Return self'
    ∧ Tabular.ordering self' = SeqTuple [Tabular.sortable self]
    ∧ (Tabular.sortable self ∈ items (Tabular.fields self')
       ↔ seq_truthy (Tabular.fields self) = true)
    ∧ items (Tabular.fields self')
      = items (Tabular.fields self)
        ++ (if seq_truthy (Tabular.fields self)
               && negb (bool_decide
                          (Tabular.sortable self
                             ∈ items (Tabular.fields self)))
            then [Tabular.sortable self] else [])
    ∧ (seq_truthy (Tabular.fields self) = false →
       Tabular.fields self' = SeqList [])
    ∧ Tabular.fields self' ≠ SeqNone
    ∧ Tabular.__init__ self' = Return self'.
Proof.
  eexists. split; [apply tabular_init_returns|]. simpl.
  destruct (seq_truthy (Tabular.fields self)) eqn:Hfs; simpl; split_and!.
  - done.
  - split; [done|]. intros _. apply with_member_elem.
  - rewrite with_member_items. by case_bool_decide.
  - done.
  - unfold with_member. case_bool_decide; [|done].
    intros Hnone. by rewrite Hnone in Hfs.
  - rewrite tabular_init_returns. simpl.
    by rewrite with_member_truthy, with_member_idemp.
  - done.
  - split; [by intros ?%elem_of_nil|done].
  - by rewrite falsy_items, app_nil_r.
  - done.
  - done.
  - by rewrite tabular_init_returns.
Qed.

(* ===================================================================== *)
(** ** suit/widgets.py: _make_attrs *)
(* ===================================================================== *)

Section MakeAttrs.
Import Widgets.
Implicit Types (attrs defaults : option (gmap string value))
  (classes : value) (r : gmap string value) (k : string).

Lemma dict_truthy_default (d : option (gmap string value)) :
  (if dict_truthy d then default ∅ d else ∅) = default ∅ d.
Proof.
  destruct d as [m|]; simpl; [|done]. by case_bool_decide.
Qed.

Lemma merged_lookup attrs defaults k :
  (if dict_truthy attrs
   then default ∅ attrs ∪ (if dict_truthy defaults then default ∅ defaults
                            else ∅)
   else (if dict_truthy defaults then default ∅ defaults else ∅)) !! k
  = given attrs defaults k.
Proof.
  rewrite dict_truthy_default. unfold given.
  assert ((if dict_truthy attrs then default ∅ attrs ∪ default ∅ defaults
           else default ∅ defaults)
          = default ∅ attrs ∪ default ∅ defaults) as ->.
  { destruct attrs as [m|]; simpl; [|by rewrite (left_id_L ∅ (∪))].
    case_bool_decide; subst; [|done]. by rewrite (left_id_L ∅ (∪)). }
  rewrite lookup_union. by destruct (default ∅ attrs !! k), (default ∅ defaults !! k).
Qed.

Lemma make_attrs_plain attrs defaults classes :
  truthy classes = false →
  ∃ r, _make_attrs attrs defaults classes = Return r
       ∧ ∀ k, r !! k = given attrs defaults k.
Proof.
  intros Hclasses. unfold _make_attrs. rewrite Hclasses.
  eexists. split; [done|]. intros k. apply merged_lookup.
Qed.

Lemma make_attrs_other_keys attrs defaults classes r k :
  _make_attrs attrs defaults classes = Return r →
  k ≠ "class" →
  r !! k = given attrs defaults k.
Proof.
  unfold _make_attrs. destruct (truthy classes).
  - destruct (join_pair _ _ _) as [joined|e]; simpl; [|done].
    intros [= <-] Hk. rewrite lookup_insert_ne by done. apply merged_lookup.
  - intros [= <-] _. apply merged_lookup.
Qed.

Lemma make_attrs_class_entry attrs defaults c :
  c ≠ "" →
  _make_attrs attrs defaults (PyStr c)
  = match default (PyStr "") (given attrs defaults "class") with
    | PyStr s =>
        Return (<["class" := PyStr (c +:+ " " +:+ s)]>
                  (if dict_truthy attrs
                   then default ∅ attrs
                        ∪ (if dict_truthy defaults then default ∅ defaults
                           else ∅)
                   else (if dict_truthy defaults then default ∅ defaults
                         else ∅)))
    | _ => Raise TypeError
    end.
Proof.
  intros Hc. unfold _make_attrs. simpl.
  rewrite bool_decide_eq_false_2 by done. simpl.
  rewrite merged_lookup.
  by destruct (default (PyStr "") (given attrs defaults "class")).
Qed.

End MakeAttrs.

(** X8. [_make_attrs] lets [attrs] win over [defaults] on every key:
    without classes it always returns, and each key holds the entry of
    [attrs] when there is one, else that of [defaults]; with classes the
    same holds on every key but ["class"] whenever it returns. *)
Theorem make_attrs_precedence (attrs defaults : option (gmap string value))
    (classes : value) :
  (truthy classes = false →
   ∃ r, Widgets._make_attrs attrs defaults classes = Return r
        ∧ ∀ k, r !! k = given attrs defaults k)
  ∧ (∀ r k, Widgets._make_attrs attrs defaults classes = Return r →
            k ≠ "class" → r !! k = given attrs defaults k).
Proof.
  split; [apply make_attrs_plain|].
  intros r k. apply make_attrs_other_keys.
Qed.

Lemma make_attrs_precedence_witness :
  ∃ r, Widgets._make_attrs (Some {[ "rows" := PyInt 5 ]})
         (Some {[ "rows" := PyInt 2; "cols" := PyInt 40 ]}) PyNone = Return r
       ∧ r !! "rows" = Some (PyInt 5)
       ∧ r !! "cols" = Some (PyInt 40).
Proof.
  destruct (proj1 (make_attrs_precedence (Some {[ "rows" := PyInt 5 ]})
                     (Some {[ "rows" := PyInt 2; "cols" := PyInt 40 ]})
                     PyNone) eq_refl) as (r & Hr & Hkeys).
  exists r. split_and!; [exact Hr|..]; rewrite Hkeys; reflexivity.
Defined.

(** X9. With a non-empty string of classes, [_make_attrs] stores under
    ["class"] the classes, a space, and the class given by [attrs] or
    else by [defaults]; with no class given the entry ends with that
    space, and a given class that is not a string raises [TypeError]. *)
Theorem make_attrs_class (attrs defaults : option (gmap string value))
    (c : string) :
  c ≠ "" →
  match given attrs defaults "class" with
  | None =>
      ∃ r, Widgets._make_attrs attrs defaults (PyStr c) = Return r
           ∧ r !! "class" = Some (PyStr (c +:+ " "))
  | Some (PyStr s) =>
      ∃ r, Widgets._make_attrs attrs defaults (PyStr c) = Return r
           ∧ r !! "class" = Some (PyStr (c +:+ " " +:+ s))
  | Some _ => Widgets._make_attrs attrs defaults (PyStr c) = Raise TypeError
  end.
Proof.
  intros Hc. rewrite make_attrs_class_entry by done.
  destruct (given attrs defaults "class") as [[|z|s]|]; simpl; try done;
    eexists; (split; [done|]); by rewrite lookup_insert_eq.
Qed.

Lemma make_attrs_class_witness :
  ∃ r, Widgets._make_attrs None (Some {[ "rows" := PyInt 2 ]})
         (PyStr "autosize form-control") = Return r
       ∧ r !! "class" = Some (PyStr "autosize form-control ")
       ∧ r !! "rows" = Some (PyInt 2).
Proof.
  pose proof (make_attrs_class None (Some {[ "rows" := PyInt 2 ]})
                "autosize form-control") as Hclass.
  assert (given None (Some {[ "rows" := PyInt 2 ]}) "class" = None) as Hgiven
    by (vm_compute; reflexivity).
  rewrite Hgiven in Hclass.
  destruct Hclass as (r & Hr & Hc); [discriminate|].
  exists r. split_and!; [exact Hr|exact Hc|].
  rewrite (make_attrs_other_keys _ _ _ r "rows" Hr) by discriminate.
  vm_compute. reflexivity.
Defined.

(* ===================================================================== *)
(** ** suit/widgets.py: EnclosedInput *)
(* ===================================================================== *)

Section Enclosed.
Import Widgets.
Implicit Types (self : EnclosedInput) (output value : string).

Lemma string_length_app (s1 s2 : string) :
  String.length (s1 +:+ s2) = (String.length s1 + String.length s2)%nat.
Proof.
  induction s1 as [|a s1 IH]; [done|].
  change (String a s1 +:+ s2) with (String a (s1 +:+ s2)). simpl.
  by rewrite IH.
Qed.

Lemma enclose_value_longer value wrapper_class :
  (String.length value
   < String.length (enclose_value value wrapper_class))%nat.
Proof.
  unfold enclose_value. destruct (String.prefix "fa-" value);
    rewrite !string_length_app; simpl; lia.
Qed.

Lemma enclose_value_truthy value wrapper_class :
  str_truthy (Some (enclose_value value wrapper_class)) = true.
Proof.
  unfold str_truthy. rewrite bool_decide_eq_false_2; [done|].
  intros Hempty. pose proof (enclose_value_longer value wrapper_class) as Hlen.
  rewrite Hempty in Hlen. simpl in Hlen. lia.
Qed.

Lemma str_truthy_default (o : option string) :
  str_truthy o = true → o = Some (default "" o).
Proof. by destruct o. Qed.

Lemma render_eq self output :
  render self output
  = (let output1 :=
       if str_truthy (prepend self)
       then enclose_value (default "" (prepend self)) (prepend_class self)
            +:+ output
       else output in
     let output2 :=
       if str_truthy (append self)
       then output1
            +:+ enclose_value (default "" (append self)) (append_class self)
       else output1 in
     "<div class=" +:+ dq
       +:+ (if str_truthy (prepend self) || str_truthy (append self)
            then "input-group" else "")
       +:+ dq +:+ ">" +:+ output2 +:+ "</div>",
     {| prepend :=
          if str_truthy (prepend self)
          then Some (enclose_value (default "" (prepend self))
                       (prepend_class self))
          else prepend self;
        prepend_class := prepend_class self;
        append :=
          if str_truthy (append self)
          then Some (enclose_value (default "" (append self))
                       (append_class self))
          else append self;
        append_class := append_class self |}).
Proof.
  assert (elements ({["input-group"]} ∪ ∅ : gset string) = ["input-group"])
    as E1 by (vm_compute; reflexivity).
  assert (elements ({["input-group"]} ∪ ({["input-group"]} ∪ ∅) : gset string)
          = ["input-group"]) as E2 by (vm_compute; reflexivity).
  assert (elements (∅ : gset string) = []) as E0 by (vm_compute; reflexivity).
  unfold render. destruct self as [p pc a ac].
  cbn [prepend append prepend_class append_class].
  destruct (str_truthy p) eqn:Hp, (str_truthy a) eqn:Ha;
    cbn [prepend append prepend_class append_class orb];
    rewrite ?Ha;
    cbn [prepend append prepend_class append_class orb];
    rewrite ?E0, ?E1, ?E2; reflexivity.
Qed.

Lemma enclosed_truthy (o : option string) (cls : string) :
  str_truthy (if str_truthy o then Some (enclose_value (default "" o) cls)
              else o)
  = str_truthy o.
Proof.
  destruct (str_truthy o) eqn:Ho; [|done]. apply enclose_value_truthy.
Qed.

Lemma render_again self output :
  str_truthy (prepend self) = true ∨ str_truthy (append self) = true →
  (String.length (render self output).1
   < String.length (render (render self output).2 output).1)%nat.
Proof.
  intros Hsome. rewrite (render_eq (render self output).2).
  rewrite (render_eq self output).
  cbn [fst snd prepend append prepend_class append_class].
  rewrite !enclosed_truthy.
  pose proof (enclose_value_longer
    (enclose_value (default "" (prepend self)) (prepend_class self))
    (prepend_class self)) as Hp.
  pose proof (enclose_value_longer
    (enclose_value (default "" (append self)) (append_class self))
    (append_class self)) as Ha.
  destruct (str_truthy (prepend self)), (str_truthy (append self));
    cbn [default orb];
    [| | |by destruct Hsome];
    unfold default, id in *; rewrite !string_length_app; lia.
Qed.

Lemma render_state_same self output :
  (render self output).2 = self
  ↔ str_truthy (prepend self) = false ∧ str_truthy (append self) = false.
Proof.
  rewrite render_eq. cbn [snd]. split.
  - intros Hsame.
    pose proof (f_equal prepend Hsame) as Hp.
    pose proof (f_equal append Hsame) as Ha. cbn [prepend append] in Hp, Ha.
    split.
    + destruct (str_truthy (prepend self)) eqn:Htruthy; [|done].
      rewrite (str_truthy_default _ Htruthy) in Hp at 2.
      injection Hp as Hp.
      pose proof (enclose_value_longer (default "" (prepend self))
                    (prepend_class self)) as Hlen.
      rewrite Hp in Hlen. lia.
    + destruct (str_truthy (append self)) eqn:Htruthy; [|done].
      rewrite (str_truthy_default _ Htruthy) in Ha at 2.
      injection Ha as Ha.
      pose proof (enclose_value_longer (default "" (append self))
                    (append_class self)) as Hlen.
      rewrite Ha in Hlen. lia.
  - intros [-> ->]. by destruct self.
Qed.

End Enclosed.

(** X10. Rendering an [EnclosedInput] writes the enclosed texts back
    into the widget: the widget is left as it was only when it has
    neither prepend nor append, and otherwise a second rendering, which
    encloses them once more, is longer than the first. *)
Theorem render_not_repeatable (self : Widgets.EnclosedInput)
    (output : string) :
  ((Widgets.render self output).2 = self
   ↔ Widgets.str_truthy (Widgets.prepend self) = false
     ∧ Widgets.str_truthy (Widgets.append self) = false)
  ∧ (Widgets.str_truthy (Widgets.prepend self) = true
     ∨ Widgets.str_truthy (Widgets.append self) = true →
     (String.length (Widgets.render self output).1
      < String.length
          (Widgets.render (Widgets.render self output).2 output).1)%nat).
Proof. split; [apply render_state_same|apply render_again]. Qed.

Lemma render_not_repeatable_witness :
  (String.length (Widgets.render money_input "<input>").1
   < String.length
       (Widgets.render (Widgets.render money_input "<input>").2
          "<input>").1)%nat.
Proof.
  apply (proj2 (render_not_repeatable money_input "<input>")).
  left. reflexivity.
Defined.

(* ===================================================================== *)
(** ** suit/admin.py: related fields *)
(* ===================================================================== *)

Section FieldNames.
Import Related.
Implicit Types (s p : string).

Lemma starts_dunder_true s :
  starts_dunder s = true → ∃ rest, s = String "_" (String "_" rest).
Proof.
  destruct s as [|c [|c' rest]]; try done.
  - by destruct c as [[] [] [] [] [] [] [] []].
  - destruct c as [[] [] [] [] [] [] [] []]; try done.
    destruct c' as [[] [] [] [] [] [] [] []]; try done. by exists rest.
Qed.

Lemma starts_dunder_cons c s :
  starts_dunder (String c s) = true → c = "_"%char ∧ ∃ rest, s = String "_" rest.
Proof. intros (rest & [= -> ->])%starts_dunder_true. eauto. Qed.

Lemma split_dunder_nonempty s : split_dunder s ≠ [].
Proof.
  destruct s as [|c rest]; [done|]. cbn [split_dunder].
  destruct (starts_dunder (String c rest)); [done|].
  by destruct (split_dunder rest).
Qed.

Lemma concat_cons_piece c piece pieces :
  String.concat "__" (String c piece :: pieces)
  = String c (String.concat "__" (piece :: pieces)).
Proof. by destruct pieces. Qed.

Lemma concat_split_dunder s : String.concat "__" (split_dunder s) = s.
Proof.
  remember (String.length s) as n eqn:Hn. revert s Hn.
  induction (lt_wf n) as [n _ IH]. intros s ->.
  destruct s as [|c rest]; [done|]. cbn [split_dunder].
  destruct (starts_dunder (String c rest)) eqn:Hstart.
  - apply starts_dunder_cons in Hstart as [-> [rest' ->]].
    specialize (IH (String.length rest') ltac:(simpl; lia) rest' eq_refl).
    pose proof (split_dunder_nonempty rest') as Hne.
    destruct (split_dunder rest') as [|piece pieces]; [done|].
    change (String.concat "__" ("" :: piece :: pieces))
      with ("__" +:+ String.concat "__" (piece :: pieces)).
    by rewrite IH.
  - specialize (IH (String.length rest) ltac:(simpl; lia) rest eq_refl).
    pose proof (split_dunder_nonempty rest) as Hne.
    destruct (split_dunder rest) as [|piece pieces]; [done|].
    by rewrite concat_cons_piece, IH.
Qed.

Lemma split_dunder_head c rest a piece pieces :
  starts_dunder (String c rest) = false →
  split_dunder rest = String a piece :: pieces →
  ∃ rest', rest = String a rest'.
Proof.
  intros _. destruct rest as [|c' rest']; [done|]. cbn [split_dunder].
  destruct (starts_dunder (String c' rest')); [done|].
  destruct (split_dunder rest'); intros [= <- _]; eauto.
Qed.

Lemma split_dunder_pieces s piece :
  piece ∈ split_dunder s → contains_dunder piece = false.
Proof.
  remember (String.length s) as n eqn:Hn. revert s Hn piece.
  induction (lt_wf n) as [n _ IH]. intros s -> piece.
  destruct s as [|c rest].
  { by intros ->%list_elem_of_singleton. }
  cbn [split_dunder]. destruct (starts_dunder (String c rest)) eqn:Hstart.
  - apply starts_dunder_cons in Hstart as [-> [rest' ->]].
    intros [->|Hin]%elem_of_cons; [done|].
    by apply (IH (String.length rest') ltac:(simpl; lia) rest' eq_refl).
  - pose proof (IH (String.length rest) ltac:(simpl; lia) rest eq_refl)
      as IHrest.
    destruct (split_dunder rest) as [|piece0 pieces] eqn:Hsplit.
    { by destruct (split_dunder_nonempty rest). }
    intros [->|Hin]%elem_of_cons.
    + cbn [contains_dunder]. rewrite (IHrest piece0) by left.
      rewrite orb_false_r.
      destruct (starts_dunder (String c piece0)) eqn:Hpiece; [|done].
      apply starts_dunder_cons in Hpiece as [-> [piece' ->]].
      destruct (split_dunder_head _ _ _ _ _ Hstart Hsplit) as [rest' ->].
      done.
    + apply IHrest. by right.
Qed.

Lemma substring_all s : String.substring 0 (String.length s) s = s.
Proof. induction s as [|c s IH]; [done|]. simpl. by rewrite IH. Qed.

Lemma prefix_slice p s :
  String.prefix p s = true → p +:+ slice_from (String.length p) s = s.
Proof.
  revert s. induction p as [|a p IH]; intros s Hprefix.
  - unfold slice_from. rewrite Nat.sub_0_r. apply substring_all.
  - destruct s as [|b s]; [done|]. simpl in Hprefix.
    destruct (Ascii.ascii_dec a b) as [->|]; [|done].
    change (String b p +:+ slice_from (String.length (String b p)) (String b s))
      with (String b (p +:+ slice_from (String.length p) s)).
    by rewrite IH.
Qed.

Lemma rsplit_head_cut s :
  contains_dunder s = true →
  ∃ tail, s = rsplit_head s +:+ "__" +:+ tail
          ∧ contains_dunder tail = false.
Proof.
  induction s as [|c rest IH]; [done|]. cbn [contains_dunder rsplit_head].
  destruct (contains_dunder rest) eqn:Hrest.
  - intros _. destruct (IH eq_refl) as (tail & Hcut & Htail).
    exists tail. split; [|done].
    change (String c (rsplit_head rest) +:+ "__" +:+ tail)
      with (String c (rsplit_head rest +:+ "__" +:+ tail)).
    by rewrite <-Hcut.
  - rewrite orb_false_r. intros Hstart. rewrite Hstart.
    apply starts_dunder_cons in Hstart as [-> [rest' ->]].
    exists rest'. split; [done|].
    cbn [contains_dunder] in Hrest. by apply orb_false_elim in Hrest as [_ ?].
Qed.

Lemma replace_underscores_none s c :
  String.get c (replace_underscores s) ≠ Some "_"%char.
Proof.
  revert c. induction s as [|a s IH]; intros c; [by destruct c|].
  simpl. destruct c as [|c]; [|apply IH].
  destruct (decide (a = "_"%char)); congruence.
Qed.

End FieldNames.

Section GetterProperties.
Import Related.
Variable reverse_lazy : string → value → option string → string.
Variable title : string → string.
Implicit Types (g : RelatedGetter) (obj v : pyobj) (name : string).

Lemma get_related_field_some name short_description admin_order_field
    admin_prefix :
  ∃ final,
    last (split_dunder (stripped name)) = Some final
    ∧ get_related_field title name short_description admin_order_field
        admin_prefix
      = Some {| as_link := String.prefix link_to_prefix name;
                related_names := split_dunder (stripped name);
                getter_admin_prefix := admin_prefix;
                admin_order_field :=
                  or_else admin_order_field (stripped name);
                short_description :=
                  or_else short_description
                    (replace_underscores (title final));
                allow_tags := String.prefix link_to_prefix name |}.
Proof.
  unfold get_related_field. fold (stripped name).
  destruct (last (split_dunder (stripped name))) as [final|] eqn:Hlast.
  - by exists final.
  - apply last_None in Hlast. by destruct (split_dunder_nonempty (stripped name)).
Qed.

Lemma stripped_joined name :
  (if String.prefix link_to_prefix name then link_to_prefix else "")
    +:+ stripped name = name.
Proof.
  unfold stripped. destruct (String.prefix link_to_prefix name) eqn:Hprefix.
  - by apply prefix_slice.
  - done.
Qed.

Lemma follow_app pre post obj :
  follow (pre ++ post) obj = v ← follow pre obj; follow post v.
Proof.
  revert obj. induction pre as [|n pre IH]; intros obj; [done|].
  cbn [app follow]. destruct (negb (obj_truthy obj)); [apply IH|].
  destruct (getattr obj n) as [v|]; [apply IH|done].
Qed.

Lemma follow_falsy names v :
  obj_truthy v = false → follow names v = Got v.
Proof.
  intros Hv. induction names as [|n names IH]; [done|].
  cbn [follow]. by rewrite Hv.
Qed.

Lemma getter_falsy g site obj pre post v :
  related_names g = pre ++ post →
  follow pre obj = Got v →
  obj_truthy v = false →
  getter reverse_lazy g site obj = Got v.
Proof.
  intros Hnames Hpre Hv. unfold getter.
  rewrite Hnames, follow_app, Hpre. simpl.
  rewrite follow_falsy by done. simpl. by rewrite Hv.
Qed.

Lemma getter_missing_attribute g site obj pre name post v :
  related_names g = pre ++ name :: post →
  follow pre obj = Got v →
  obj_truthy v = true →
  getattr v name = AttributeError →
  getter reverse_lazy g site obj = AttributeError.
Proof.
  intros Hnames Hpre Hv Hattr. unfold getter.
  rewrite Hnames, follow_app, Hpre. simpl. by rewrite Hv, Hattr.
Qed.

Lemma getter_link_scalar g site obj s :
  as_link g = true →
  follow (related_names g) obj = Got (Scalar s) →
  truthy s = true →
  getter reverse_lazy g site obj = AttributeError.
Proof.
  intros Hlink Hfollow Hs. unfold getter. rewrite Hfollow. simpl.
  by rewrite Hs, Hlink.
Qed.

Lemma getter_link_no_key g site obj pk app_label model_name display attrs :
  as_link g = true →
  follow (related_names g) obj
    = Got (ModelObj pk app_label model_name display attrs) →
  truthy pk = false →
  getter reverse_lazy g site obj
  = Got (Scalar (PyStr (anchor "None" display))).
Proof.
  intros Hlink Hfollow Hpk. unfold getter. rewrite Hfollow. simpl.
  by rewrite Hlink, Hpk.
Qed.

Lemma new_class_attrs admin_prefix list_display
    (new_class : gmap string class_attr) :
  ∃ new_class',
    __new__ title admin_prefix list_display new_class = Some new_class'
    ∧ (∀ k a, new_class !! k = Some a → new_class' !! k = Some a)
    ∧ (∀ k, k ∈ list_display → needs_getter k = true →
            is_Some (new_class' !! k))
    ∧ (∀ k, new_class !! k = None → is_Some (new_class' !! k) →
            k ∈ list_display ∧ needs_getter k = true
            ∧ new_class' !! k
              = Getter <$> get_related_field title k None None admin_prefix).
Proof.
  revert new_class.
  induction list_display as [|field rest IH]; intros new_class.
  { exists new_class. split_and!; [done..| |].
    - by intros k ?%elem_of_nil.
    - intros k -> [? ?]. done. }
  cbn [__new__]. fold (needs_getter field).
  destruct (needs_getter field) eqn:Hneeds.
  - case_bool_decide as Hhas; simpl.
    + destruct (IH new_class) as (nc' & -> & Hkeep & Hdef & Hnew).
      exists nc'. split_and!; [done..| |].
      * intros k [->|Hk]%elem_of_cons Hk'; [|by apply Hdef].
        destruct Hhas as [a Ha]. rewrite (Hkeep _ _ Ha). by eexists.
      * intros k Hnone Hsome.
        destruct (Hnew k Hnone Hsome) as (? & ? & ?).
        split_and!; [by right|done..].
    + destruct (get_related_field_some field None None admin_prefix)
        as (final & _ & Hg). rewrite Hg. simpl.
      match goal with |- context [Getter ?g0] => set (g := g0) in * end.
      destruct (IH (<[field := Getter g]> new_class))
        as (nc' & -> & Hkeep & Hdef & Hnew).
      assert (new_class !! field = None) as Hfield.
      { destruct (new_class !! field) eqn:E; [|done].
        destruct Hhas. by eexists. }
      exists nc'. split_and!; [done| | |].
      * intros k a Hk. apply Hkeep. rewrite lookup_insert_ne; [done|].
        intros ->. congruence.
      * intros k [->|Hk]%elem_of_cons Hk'; [|by apply Hdef].
        rewrite (Hkeep field (Getter g)); [by eexists|].
        apply lookup_insert_eq.
      * intros k Hnone Hsome. destruct (decide (k = field)) as [->|Hne].
        -- split_and!; [by left|done|].
           rewrite (Hkeep field (Getter g)) by apply lookup_insert_eq.
           by rewrite Hg.
        -- destruct (Hnew k) as (? & ? & ?); [by rewrite lookup_insert_ne|done|].
           split_and!; [by right|done..].
  - destruct (IH new_class) as (nc' & -> & Hkeep & Hdef & Hnew).
    exists nc'. split_and!; [done..| |].
    + intros k [->|Hk]%elem_of_cons Hk'; [congruence|by apply Hdef].
    + intros k Hnone Hsome.
      destruct (Hnew k Hnone Hsome) as (? & ? & ?).
      split_and!; [by right|done..].
Qed.

End GetterProperties.

Section QuerysetProperties.
Import Related.
Implicit Types (list_display : list string) (meta : gmap string field_kind).

Lemma elem_of_related_paths list_display p :
  p ∈ related_paths list_display
  ↔ ∃ field, field ∈ list_display ∧ contains_dunder field = true
             ∧ p = rsplit_head (stripped field).
Proof.
  induction list_display as [|field rest IH].
  { split; [by intros ?%elem_of_nil|]. by intros (? & ?%elem_of_nil & _). }
  cbn [related_paths]. fold (stripped field).
  destruct (contains_dunder field) eqn:Hfield.
  - rewrite elem_of_cons, IH. split.
    + intros [->|(f & Hf & ? & ?)]; [exists field|exists f];
        (split_and!; [by constructor|done..]).
    + intros (f & [->|Hf]%elem_of_cons & ? & ?); [by left|right; eauto].
  - rewrite IH. split.
    + intros (f & Hf & ? & ?). exists f. split_and!; [by right|done..].
    + intros (f & [->|Hf]%elem_of_cons & ? & ?); [congruence|eauto].
Qed.

Lemma elem_of_foreign_keys meta list_display p :
  p ∈ foreign_keys meta list_display
  ↔ p ∈ list_display ∧ meta !! p = Some ManyToOne.
Proof.
  induction list_display as [|field rest IH].
  { split; [by intros ?%elem_of_nil|]. by intros [?%elem_of_nil _]. }
  cbn [foreign_keys]. destruct (meta !! field) as [kind|] eqn:Hkind.
  - destruct (decide (kind = ManyToOne)) as [->|Hne].
    + rewrite !elem_of_cons, IH. split.
      * intros [->|[? ?]]; [by split; [left|]|by split; [right|]].
      * intros [[->|?] ?]; [by left|by right].
    + rewrite elem_of_cons, IH. split.
      * intros [? ?]. by split; [right|].
      * intros [[->|?] ?]; [congruence|done].
  - rewrite elem_of_cons, IH. split.
    + intros [? ?]. by split; [right|].
    + intros [[->|?] ?]; [congruence|done].
Qed.

End QuerysetProperties.

(** X11. [get_related_field] never fails on [related_names[-1]]: the
    path is never empty, its components hold no ["__"], and joined by
    ["__"], with the link prefix put back for a link, they spell the name
    that was given. The default [admin_order_field] is that path, and the
    default [short_description] holds no underscore. *)
Theorem get_related_field_path (title : string → string) (name : string)
    (short_description admin_order_field : option string)
    (admin_prefix : string) :
  ∃ g text,
    Related.get_related_field title name short_description
      admin_order_field admin_prefix = Some g
    ∧ Related.as_link g = String.prefix Related.link_to_prefix name
    ∧ Related.allow_tags g = Related.as_link g
    ∧ Related.related_names g ≠ []
    ∧ (if Related.as_link g then Related.link_to_prefix else "")
        +:+ String.concat "__" (Related.related_names g) = name
    ∧ (∀ piece, piece ∈ Related.related_names g →
                Related.contains_dunder piece = false)
    ∧ Related.admin_order_field g
      = Related.or_else admin_order_field
          (String.concat "__" (Related.related_names g))
    ∧ Related.short_description g = Related.or_else short_description text
    ∧ ∀ i, String.get i text ≠ Some "_"%char.
Proof.
  destruct (get_related_field_some title name short_description
              admin_order_field admin_prefix) as (final & _ & Hg).
  eexists _, _. split; [exact Hg|]. simpl. split_and!; try done.
  - apply split_dunder_nonempty.
  - rewrite concat_split_dunder. apply stripped_joined.
  - intros piece. apply split_dunder_pieces.
  - by rewrite concat_split_dunder.
  - apply replace_underscores_none.
Qed.

(** X12. A getter stops looking up attributes at the first falsy value
    on its path (an unset relation) and answers that value, whatever
    names are left and also for a link. *)
Theorem getter_stops_at_falsy
    (reverse_lazy : string → value → option string → string)
    (g : Related.RelatedGetter) (site : string) (obj v : Related.pyobj)
    (pre post : list string) :
  Related.related_names g = pre ++ post →
  Related.follow pre obj = Related.Got v →
  Related.obj_truthy v = false →
  Related.getter reverse_lazy g site obj = Related.Got v.
Proof. apply getter_falsy. Qed.

Lemma getter_stops_at_falsy_witness :
  Related.getter view_name_url city_name_getter "admin" bob
  = Related.Got (Related.Scalar PyNone).
Proof.
  apply (getter_stops_at_falsy view_name_url city_name_getter "admin" bob
           (Related.Scalar PyNone) ["address"; "city"] ["name"]).
  - reflexivity.
  - vm_compute. reflexivity.
  - reflexivity.
Defined.

(** X13. A getter raises [AttributeError] when a truthy object on its
    path lacks the next attribute. *)
Theorem getter_missing_attribute_raises
    (reverse_lazy : string → value → option string → string)
    (g : Related.RelatedGetter) (site : string) (obj v : Related.pyobj)
    (pre post : list string) (name : string) :
  Related.related_names g = pre ++ name :: post →
  Related.follow pre obj = Related.Got v →
  Related.obj_truthy v = true →
  Related.getattr v name = Related.AttributeError →
  Related.getter reverse_lazy g site obj = Related.AttributeError.
Proof. apply getter_missing_attribute. Qed.

Lemma getter_missing_attribute_raises_witness :
  Related.getter view_name_url city_name_getter "admin" eve
  = Related.AttributeError.
Proof.
  apply (getter_missing_attribute_raises view_name_url city_name_getter
           "admin" eve draft_street ["address"] ["name"] "city").
  - reflexivity.
  - vm_compute. reflexivity.
  - reflexivity.
  - vm_compute. reflexivity.
Defined.

(** X14. A link getter whose path ends on a truthy scalar raises
    [AttributeError] (a scalar has no key); when it ends on a model
    instance whose key is falsy, it answers an anchor whose address is
    the text None, without asking the host for a URL. *)
Theorem getter_link_edges
    (reverse_lazy : string → value → option string → string)
    (g : Related.RelatedGetter) (site : string) (obj final : Related.pyobj) :
  Related.as_link g = true →
  Related.follow (Related.related_names g) obj = Related.Got final →
  match final with
  | Related.Scalar s =>
      truthy s = true →
      Related.getter reverse_lazy g site obj = Related.AttributeError
  | Related.ModelObj pk _ _ display _ =>
      truthy pk = false →
      Related.getter reverse_lazy g site obj
      = Related.Got (Related.Scalar (PyStr (anchor "None" display)))
  end.
Proof.
  intros Hlink Hfollow. destruct final as [s|pk app_label model_name display attrs].
  - by apply getter_link_scalar.
  - by eapply getter_link_no_key.
Qed.

Lemma getter_link_edges_witness :
  Related.getter view_name_url name_link_getter "admin" ann
  = Related.AttributeError
  ∧ Related.getter view_name_url address_link_getter "admin" eve
    = Related.Got (Related.Scalar (PyStr (anchor "None" "Draft street"))).
Proof.
  split.
  - apply (getter_link_edges view_name_url name_link_getter "admin" ann
             (Related.Scalar (PyStr "Ann")));
      [reflexivity|vm_compute; reflexivity|reflexivity].
  - apply (getter_link_edges view_name_url address_link_getter "admin" eve
             draft_street);
      [reflexivity|vm_compute; reflexivity|reflexivity].
Defined.

(** X15. The metaclass never fails and never replaces an attribute the
    class already has; afterwards every [list_display] entry with ["__"]
    or the link prefix is an attribute of the class, and each attribute
    it added is the getter of such an entry. *)
Theorem new_installs_getters (title : string → string)
    (admin_prefix : string) (list_display : list string)
    (new_class : gmap string Related.class_attr) :
  ∃ new_class',
    Related.__new__ title admin_prefix list_display new_class
      = Some new_class'
    ∧ (∀ k a, new_class !! k = Some a → new_class' !! k = Some a)
    ∧ (∀ k, k ∈ list_display → needs_getter k = true →
            is_Some (new_class' !! k))
    ∧ (∀ k, new_class !! k = None → is_Some (new_class' !! k) →
            k ∈ list_display ∧ needs_getter k = true
            ∧ new_class' !! k
              = Related.Getter
                  <$> Related.get_related_field title k None None
                        admin_prefix).
Proof. apply new_class_attrs. Qed.

(** X16. The names that [get_queryset] hands to [select_related] are the
    related path of each [list_display] entry with ["__"] (the entry
    without its link prefix, cut before its last ["__"]) and the entries
    that are many-to-one fields of the model, and nothing else. *)
Theorem get_queryset_names {QuerySet : Type}
    (select_related : QuerySet → list string → QuerySet)
    (list_display : list string) (meta : gmap string Related.field_kind)
    (qs : QuerySet) :
  ∃ names,
    Related.get_queryset select_related list_display meta qs
      = select_related qs names
    ∧ (∀ p, p ∈ names
            ↔ (∃ field, field ∈ list_display
                        ∧ Related.contains_dunder field = true
                        ∧ p = Related.rsplit_head (stripped field))
              ∨ (p ∈ list_display ∧ meta !! p = Some Related.ManyToOne))
    ∧ (∀ field, Related.contains_dunder (stripped field) = true →
         ∃ tail, stripped field
                   = Related.rsplit_head (stripped field) +:+ "__" +:+ tail
                 ∧ Related.contains_dunder tail = false).
Proof.
  eexists. split; [reflexivity|]. split.
  - intros p. by rewrite elem_of_app, elem_of_related_paths,
      elem_of_foreign_keys.
  - intros field. apply rsplit_head_cut.
Qed.

(* ===================================================================== *)
(** ** suit/admin.py: merge_form_meta and formfield_for_dbfield *)
(* ===================================================================== *)

Section FormsProperties.
Import Forms.
Implicit Types (h : heap) (form meta d w : positive) (s k : string).

Lemma shared_order_widget_holds h w :
  list_form_holds h w → shared_order_widget h = Return w.
Proof.
  intros (d & Hd & Hw). unfold shared_order_widget, getitem.
  by rewrite Hd, Hw.
Qed.

Lemma lookup_total_dicts_Some {A} (m : gmap positive (gmap string A)) d k
    (a : A) :
  (m !!! d) !! k = Some a → d ∈ dom m.
Proof.
  rewrite lookup_total_alt. destruct (m !! d) eqn:Hd; simpl.
  - intros _. apply elem_of_dom. by eexists.
  - by rewrite lookup_empty.
Qed.

Lemma merge_form_meta_spec s form h w :
  list_form_holds h w →
  ∃ h' d,
    merge_form_meta s form h = Return h'
    ∧ form_meta h' !! form
      = Some (default SortableListForm_Meta (form_meta h !! form))
    ∧ meta_widgets h'
        !! default SortableListForm_Meta (form_meta h !! form) = Some d
    ∧ (dicts h' !!! d) !! s = Some w
    ∧ list_form_holds h' w
    ∧ (∀ form', form' ≠ form → form_meta h' !! form' = form_meta h !! form')
    ∧ (∀ d' k, d' ∈ dom (dicts h) → k ≠ s →
               (dicts h' !!! d') !! k = (dicts h !!! d') !! k)
    ∧ (meta_widgets h !! SortableListForm_Meta
       = meta_widgets h' !! SortableListForm_Meta)
    ∧ widget_attrs h' = widget_attrs h
    ∧ (∀ m d', meta_widgets h !! m = Some d' → dicts h !!! d' ≠ ∅ →
               meta_widgets h' !! m = Some d').
Proof.
  intros (d0 & Hd0 & Hw0). unfold merge_form_meta.
  set (meta := default SortableListForm_Meta (form_meta h !! form)).
  (* the heap after the first assignment *)
  set (h1 := match form_meta h !! form with
             | Some _ => h
             | None => _
             end).
  assert (form_meta h1 !! form = Some meta) as Hform.
  { unfold h1, meta. destruct (form_meta h !! form) eqn:E; simpl; [done|].
    by rewrite lookup_insert_eq. }
  assert (meta_widgets h1 = meta_widgets h ∧ dicts h1 = dicts h
          ∧ widget_attrs h1 = widget_attrs h
          ∧ ∀ form', form' ≠ form →
                     form_meta h1 !! form' = form_meta h !! form')
    as (Hmw1 & Hd1 & Hwa1 & Hfm1).
  { unfold h1. destruct (form_meta h !! form); simpl; split_and!; try done.
    intros form' Hne. by rewrite lookup_insert_ne. }
  rewrite Hform. simpl. fold meta.
  assert (d0 ∈ dom (dicts h)) as Hdom0 by by eapply lookup_total_dicts_Some.
  pose proof (is_fresh (dom (dicts h1))) as Hfresh. rewrite Hd1 in Hfresh.
  rewrite Hmw1, Hd1.
  assert (fresh (dom (dicts h)) ≠ d0) as Hd10.
  { intros Heq. by rewrite Heq in Hfresh. }
  assert (∀ h2,
    meta ≠ SortableListForm_Meta →
    (∀ d', meta_widgets h !! meta = Some d' → dicts h !!! d' = ∅) →
    h2 = {| form_meta := form_meta h1;
            meta_widgets :=
              <[meta := fresh (dom (dicts h))]> (meta_widgets h);
            dicts := <[fresh (dom (dicts h)) := ∅]> (dicts h);
            widget_attrs := widget_attrs h1 |} →
    ∃ h' d,
      (widget ← shared_order_widget h2;
       match meta_widgets h2 !! meta with
       | Some d2 =>
           Return
             {| form_meta := form_meta h2; meta_widgets := meta_widgets h2;
                dicts := <[d2 := <[s := widget]> (dicts h2 !!! d2)]>
                           (dicts h2);
                widget_attrs := widget_attrs h2 |}
       | None => Raise TypeError
       end) = Return h'
      ∧ form_meta h' !! form = Some meta
      ∧ meta_widgets h' !! meta = Some d
      ∧ (dicts h' !!! d) !! s = Some w
      ∧ list_form_holds h' w
      ∧ (∀ form', form' ≠ form →
                  form_meta h' !! form' = form_meta h !! form')
      ∧ (∀ d' k, d' ∈ dom (dicts h) → k ≠ s →
                 (dicts h' !!! d') !! k = (dicts h !!! d') !! k)
      ∧ (meta_widgets h !! SortableListForm_Meta
         = meta_widgets h' !! SortableListForm_Meta)
      ∧ widget_attrs h' = widget_attrs h
      ∧ (∀ m d', meta_widgets h !! m = Some d' → dicts h !!! d' ≠ ∅ →
                 meta_widgets h' !! m = Some d')) as Hnew.
  { intros h2 Hne Hemp ->. set (d1 := fresh (dom (dicts h))) in *.
    unfold shared_order_widget, getitem.
    cbn [meta_widgets dicts form_meta widget_attrs].
    assert (<[meta:=d1]> (meta_widgets h) !! SortableListForm_Meta = Some d0)
      as -> by (by rewrite lookup_insert_ne).
    assert (<[d1:=∅]> (dicts h) !!! d0 = dicts h !!! d0)
      as -> by (by rewrite lookup_total_insert_ne).
    rewrite Hw0. cbn [mbind result_bind]. rewrite lookup_insert_eq.
    eexists _, d1. split; [done|].
    cbn [meta_widgets dicts form_meta widget_attrs]. split_and!.
    - done.
    - by rewrite lookup_insert_eq.
    - by rewrite !lookup_total_insert_eq, lookup_insert_eq.
    - exists d0. cbn [meta_widgets dicts]. rewrite lookup_insert_ne by done.
      split; [done|]. by rewrite !lookup_total_insert_ne.
    - done.
    - intros d' k Hd' Hk.
      by rewrite !lookup_total_insert_ne by (intros ->; done).
    - by rewrite lookup_insert_ne.
    - done.
    - intros m d' Hm Hfull. destruct (decide (meta = m)) as [Heq|Hmm].
      + rewrite <- Heq in Hm. by specialize (Hemp _ Hm).
      + by rewrite lookup_insert_ne. }
  destruct (meta_widgets h !! meta) as [d|] eqn:Hmeta.
  - case_bool_decide as Hempty; cbn [negb].
    + (* an empty dict is replaced by a new one *)
      apply Hnew; [| |done].
      * intros Heq. rewrite Heq, Hd0 in Hmeta. simplify_eq.
        by rewrite Hempty, lookup_empty in Hw0.
      * intros d' Hd'. by simplify_eq.
    + (* the dict of the form's Meta is written *)
      rewrite (shared_order_widget_holds h1 w).
      2:{ exists d0. by rewrite Hmw1, Hd1. }
      cbn [mbind result_bind]. rewrite Hmw1, Hmeta, Hd1.
      eexists _, d. split; [done|].
      cbn [meta_widgets dicts form_meta widget_attrs]. split_and!.
      * done.
      * done.
      * by rewrite lookup_total_insert_eq, lookup_insert_eq.
      * exists d0. cbn [meta_widgets dicts]. split; [done|].
        destruct (decide (d = d0)) as [->|Hne].
        -- rewrite lookup_total_insert_eq.
           destruct (decide (s = "order")) as [->|Hs].
           ++ by rewrite lookup_insert_eq.
           ++ by rewrite lookup_insert_ne.
        -- by rewrite lookup_total_insert_ne.
      * done.
      * intros d' k Hd' Hk. destruct (decide (d = d')) as [->|Hne].
        -- by rewrite lookup_total_insert_eq, lookup_insert_ne.
        -- by rewrite lookup_total_insert_ne.
      * done.
      * done.
      * done.
  - (* no widgets yet: a new dict *)
    apply Hnew; [| |done].
    + intros Heq. by rewrite Heq, Hd0 in Hmeta.
    + intros d' Hd'. by simplify_eq.
Qed.

Lemma stacked_formfield_spec s (kwargs : gmap string kwarg) h w
    (c : string) :
  list_form_holds h w →
  (widget_attrs h !!! w) !! "class" = Some c →
  ∃ copy h',
    StackedFormfield.formfield_for_dbfield s s kwargs h
    = Return (<["widget" := KwWidget copy]> kwargs, h')
    ∧ (copy ∉ dom (widget_attrs h))
    ∧ (widget_attrs h' !!! copy)
      = <["rowclass" := " suit-sortable-stacked-row"]>
          (<["class" := c +:+ " suit-sortable-stacked"]>
             (widget_attrs h !!! w))
    ∧ (∀ w', w' ∈ dom (widget_attrs h) →
             widget_attrs h' !!! w' = widget_attrs h !!! w')
    ∧ form_meta h' = form_meta h
    ∧ meta_widgets h' = meta_widgets h
    ∧ dicts h' = dicts h.
Proof.
  intros Hlist Hclass. unfold StackedFormfield.formfield_for_dbfield.
  rewrite bool_decide_eq_true_2 by done.
  rewrite (shared_order_widget_holds h w Hlist). cbn [mbind result_bind].
  unfold getitem. rewrite Hclass. cbn [mbind result_bind mret result_ret].
  eexists _, _. split; [reflexivity|].
  cbn [widget_attrs form_meta meta_widgets dicts].
  pose proof (is_fresh (dom (widget_attrs h))) as Hfresh.
  split_and!; try done.
  - by rewrite lookup_total_insert_eq.
  - intros w' Hw'. rewrite lookup_total_insert_ne; [done|].
    intros Heq. by rewrite Heq in Hfresh.
Qed.

Lemma list_form_holds_same h h' w :
  meta_widgets h' = meta_widgets h → dicts h' = dicts h →
  list_form_holds h w → list_form_holds h' w.
Proof. intros Hm Hd (d & ? & ?). exists d. by rewrite Hm, Hd. Qed.

End FormsProperties.

(** X17. [merge_form_meta]: while [SortableListForm.Meta.widgets] holds
    a widget under ["order"], the call returns; afterwards the form has
    a [Meta] whose [widgets] hold that very widget under [self.sortable],
    and [SortableListForm.Meta.widgets] still holds it under ["order"],
    so that the call can be made again, for any form and field name. *)
Theorem merge_form_meta_installs_widget (s : string) (form : positive)
    (h : Forms.heap) (w : positive) :
  list_form_holds h w →
  ∃ h' meta d,
    Forms.merge_form_meta s form h = Return h'
    ∧ Forms.form_meta h' !! form = Some meta
    ∧ Forms.meta_widgets h' !! meta = Some d
    ∧ (Forms.dicts h' !!! d) !! s = Some w
    ∧ list_form_holds h' w.
Proof.
  intros Hlist.
  destruct (merge_form_meta_spec s form h w Hlist)
    as (h' & d & Hrun & Hmeta & Hd & Hs & Hlist' & _).
  by exists h', (default Forms.SortableListForm_Meta (Forms.form_meta h !! form)),
    d.
Qed.

Lemma merge_form_meta_installs_widget_witness :
  list_form_holds Forms.loaded 1%positive
  ∧ ∃ h' meta d,
      Forms.merge_form_meta "position" 5%positive Forms.loaded = Return h'
      ∧ Forms.form_meta h' !! 5%positive = Some meta
      ∧ Forms.meta_widgets h' !! meta = Some d
      ∧ (Forms.dicts h' !!! d) !! "position" = Some 1%positive
      ∧ list_form_holds h' 1%positive.
Proof.
  assert (list_form_holds Forms.loaded 1%positive) as Hlist.
  { exists 1%positive. split; reflexivity. }
  split; [exact Hlist|].
  exact (merge_form_meta_installs_widget "position" 5%positive Forms.loaded
           1%positive Hlist).
Defined.

(** X18. [merge_form_meta] writes one entry only: a form that has a
    [Meta] keeps it, a non-empty [widgets] dict stays the dict of its
    [Meta] (it is written in place), the other form classes keep what
    they had, every dict keeps its entries under the names other than
    [self.sortable], and no widget is modified. *)
Theorem merge_form_meta_frame (s : string) (form : positive)
    (h : Forms.heap) (w : positive) :
  list_form_holds h w →
  ∃ h',
    Forms.merge_form_meta s form h = Return h'
    ∧ (∀ meta, Forms.form_meta h !! form = Some meta →
               Forms.form_meta h' !! form = Some meta)
    ∧ (∀ meta d, Forms.meta_widgets h !! meta = Some d →
                 Forms.dicts h !!! d ≠ ∅ →
                 Forms.meta_widgets h' !! meta = Some d)
    ∧ (∀ form', form' ≠ form →
                Forms.form_meta h' !! form' = Forms.form_meta h !! form')
    ∧ (∀ d k, d ∈ dom (Forms.dicts h) → k ≠ s →
              (Forms.dicts h' !!! d) !! k = (Forms.dicts h !!! d) !! k)
    ∧ Forms.widget_attrs h' = Forms.widget_attrs h.
Proof.
  intros Hlist.
  destruct (merge_form_meta_spec s form h w Hlist)
    as (h' & d & Hrun & Hmeta & _ & _ & _ & Hforms & Hdicts & _ & Hattrs
        & Hkept).
  exists h'. split_and!; try done.
  intros meta Hhas. by rewrite Hmeta, Hhas.
Qed.

Lemma merge_form_meta_frame_witness :
  list_form_holds titled_form_heap 1%positive
  ∧ ∃ h',
      Forms.merge_form_meta "position" 7%positive titled_form_heap
      = Return h'
      ∧ (∀ meta, Forms.form_meta titled_form_heap !! 7%positive = Some meta →
                 Forms.form_meta h' !! 7%positive = Some meta)
      ∧ (∀ meta d, Forms.meta_widgets titled_form_heap !! meta = Some d →
                   Forms.dicts titled_form_heap !!! d ≠ ∅ →
                   Forms.meta_widgets h' !! meta = Some d)
      ∧ (∀ form', form' ≠ 7%positive →
                  Forms.form_meta h' !! form'
                  = Forms.form_meta titled_form_heap !! form')
      ∧ (∀ d k, d ∈ dom (Forms.dicts titled_form_heap) → k ≠ "position" →
                (Forms.dicts h' !!! d) !! k
                = (Forms.dicts titled_form_heap !!! d) !! k)
      ∧ Forms.widget_attrs h' = Forms.widget_attrs titled_form_heap.
Proof.
  assert (list_form_holds titled_form_heap 1%positive) as Hlist.
  { exists 1%positive. split; reflexivity. }
  split; [exact Hlist|].
  exact (merge_form_meta_frame "position" 7%positive titled_form_heap
           1%positive Hlist).
Defined.

(** X19. Form classes without a [Meta] are all given the one
    [SortableListForm.Meta]: after [merge_form_meta] for a form [f] with
    the field name [s] and then for a form [g] with the field name [s'],
    both have that [Meta], and its [widgets] hold the order widget under
    [s] and under [s'], so each form sees the other's field name. *)
Theorem merge_form_meta_shares_meta (s s' : string) (f g : positive)
    (h : Forms.heap) (w : positive) :
  list_form_holds h w →
  Forms.form_meta h !! f = None →
  Forms.form_meta h !! g = None →
  ∃ h1 h2 d,
    Forms.merge_form_meta s f h = Return h1
    ∧ Forms.merge_form_meta s' g h1 = Return h2
    ∧ Forms.form_meta h2 !! f = Some Forms.SortableListForm_Meta
    ∧ Forms.form_meta h2 !! g = Some Forms.SortableListForm_Meta
    ∧ Forms.meta_widgets h2 !! Forms.SortableListForm_Meta = Some d
    ∧ (Forms.dicts h2 !!! d) !! s = Some w
    ∧ (Forms.dicts h2 !!! d) !! s' = Some w.
Proof.
  intros Hlist Hf Hg.
  destruct (merge_form_meta_spec s f h w Hlist)
    as (h1 & d1 & Hrun1 & Hmeta1 & Hd1 & Hs1 & Hlist1 & Hforms1 & _).
  rewrite Hf in Hmeta1, Hd1. cbn [default] in Hmeta1, Hd1.
  assert (default Forms.SortableListForm_Meta (Forms.form_meta h1 !! g)
          = Forms.SortableListForm_Meta) as Hg1.
  { destruct (decide (g = f)) as [->|Hne].
    - by rewrite Hmeta1.
    - by rewrite Hforms1, Hg. }
  destruct (merge_form_meta_spec s' g h1 w Hlist1)
    as (h2 & d2 & Hrun2 & Hmeta2 & Hd2 & Hs2 & _ & Hforms2 & Hdicts2
        & Hsame2 & _).
  rewrite Hg1 in Hmeta2, Hd2.
  assert (d2 = d1) as ->.
  { rewrite <- Hsame2, Hd1 in Hd2. by injection Hd2. }
  exists h1, h2, d1. split_and!; try done.
  - destruct (decide (f = g)) as [->|Hne]; [done|].
    by rewrite Hforms2, Hmeta1.
  - destruct (decide (s = s')) as [->|Hne]; [done|].
    rewrite Hdicts2; [done| |done].
    by eapply lookup_total_dicts_Some.
Qed.

Lemma merge_form_meta_shares_meta_witness :
  list_form_holds Forms.loaded 1%positive
  ∧ ∃ h1 h2 d,
      Forms.merge_form_meta "position" 5%positive Forms.loaded = Return h1
      ∧ Forms.merge_form_meta "rank" 6%positive h1 = Return h2
      ∧ Forms.form_meta h2 !! 5%positive = Some Forms.SortableListForm_Meta
      ∧ Forms.form_meta h2 !! 6%positive = Some Forms.SortableListForm_Meta
      ∧ Forms.meta_widgets h2 !! Forms.SortableListForm_Meta = Some d
      ∧ (Forms.dicts h2 !!! d) !! "position" = Some 1%positive
      ∧ (Forms.dicts h2 !!! d) !! "rank" = Some 1%positive.
Proof.
  assert (list_form_holds Forms.loaded 1%positive) as Hlist.
  { exists 1%positive. split; reflexivity. }
  split; [exact Hlist|].
  exact (merge_form_meta_shares_meta "position" "rank" 5%positive 6%positive
           Forms.loaded 1%positive Hlist eq_refl eq_refl).
Defined.

(** X20. The stacked inline's [formfield_for_dbfield], for the sortable
    field: the widget it hands on is a new object, whose [attrs] are
    those of the shared order widget with the suffix added to ["class"]
    and with ["rowclass"] set; the widgets that existed, the shared one
    among them, are left as they were. *)
Theorem stacked_formfield_copies (s : string)
    (kwargs : gmap string Forms.kwarg) (h : Forms.heap) (w : positive)
    (c : string) :
  list_form_holds h w →
  (Forms.widget_attrs h !!! w) !! "class" = Some c →
  ∃ copy h',
    StackedFormfield.formfield_for_dbfield s s kwargs h
    = Return (<["widget" := Forms.KwWidget copy]> kwargs, h')
    ∧ (copy ∉ dom (Forms.widget_attrs h))
    ∧ (Forms.widget_attrs h' !!! copy) !! "class"
      = Some (c +:+ " suit-sortable-stacked")
    ∧ (Forms.widget_attrs h' !!! copy) !! "rowclass"
      = Some " suit-sortable-stacked-row"
    ∧ (∀ k, k ≠ "class" → k ≠ "rowclass" →
            (Forms.widget_attrs h' !!! copy) !! k
            = (Forms.widget_attrs h !!! w) !! k)
    ∧ (∀ w', w' ∈ dom (Forms.widget_attrs h) →
             Forms.widget_attrs h' !!! w' = Forms.widget_attrs h !!! w')
    ∧ list_form_holds h' w.
Proof.
  intros Hlist Hclass.
  destruct (stacked_formfield_spec s kwargs h w c Hlist Hclass)
    as (copy & h' & Hrun & Hnew & Hcopy & Hold & _ & Hmw & Hd).
  exists copy, h'. rewrite Hcopy. split_and!; try done.
  - by rewrite lookup_insert_ne, lookup_insert_eq.
  - by rewrite lookup_insert_eq.
  - intros k Hk1 Hk2. by rewrite !lookup_insert_ne.
  - by eapply list_form_holds_same.
Qed.

Lemma stacked_formfield_copies_witness :
  (list_form_holds Forms.loaded 1%positive
   ∧ (Forms.widget_attrs Forms.loaded !!! 1%positive) !! "class"
     = Some "hide input-mini suit-sortable")
  ∧ ∃ copy h',
      StackedFormfield.formfield_for_dbfield "order" "order" ∅ Forms.loaded
      = Return (<["widget" := Forms.KwWidget copy]> ∅, h')
      ∧ (copy ∉ dom (Forms.widget_attrs Forms.loaded))
      ∧ (Forms.widget_attrs h' !!! copy) !! "class"
        = Some ("hide input-mini suit-sortable" +:+ " suit-sortable-stacked")
      ∧ (Forms.widget_attrs h' !!! copy) !! "rowclass"
        = Some " suit-sortable-stacked-row"
      ∧ (∀ k, k ≠ "class" → k ≠ "rowclass" →
              (Forms.widget_attrs h' !!! copy) !! k
              = (Forms.widget_attrs Forms.loaded !!! 1%positive) !! k)
      ∧ (∀ w', w' ∈ dom (Forms.widget_attrs Forms.loaded) →
               Forms.widget_attrs h' !!! w'
               = Forms.widget_attrs Forms.loaded !!! w')
      ∧ list_form_holds h' 1%positive.
Proof.
  assert (list_form_holds Forms.loaded 1%positive) as Hlist.
  { exists 1%positive. split; reflexivity. }
  assert ((Forms.widget_attrs Forms.loaded !!! 1%positive) !! "class"
          = Some "hide input-mini suit-sortable") as Hclass
    by reflexivity.
  split; [exact (conj Hlist Hclass)|].
  exact (stacked_formfield_copies "order" ∅ Forms.loaded 1%positive
           "hide input-mini suit-sortable" Hlist Hclass).
Defined.

(** X21. The suffix does not pile up: two calls of the stacked inline's
    [formfield_for_dbfield] hand on two different new widgets, each with
    the shared widget's class followed by the suffix once, and the
    shared widget keeps its class. *)
Theorem stacked_formfield_no_accumulation (s : string)
    (kwargs kwargs' : gmap string Forms.kwarg) (h : Forms.heap)
    (w : positive) (c : string) :
  list_form_holds h w →
  (Forms.widget_attrs h !!! w) !! "class" = Some c →
  ∃ c1 c2 h1 h2,
    StackedFormfield.formfield_for_dbfield s s kwargs h
    = Return (<["widget" := Forms.KwWidget c1]> kwargs, h1)
    ∧ StackedFormfield.formfield_for_dbfield s s kwargs' h1
      = Return (<["widget" := Forms.KwWidget c2]> kwargs', h2)
    ∧ c1 ≠ c2 ∧ c1 ≠ w ∧ c2 ≠ w
    ∧ (Forms.widget_attrs h2 !!! c1) !! "class"
      = Some (c +:+ " suit-sortable-stacked")
    ∧ (Forms.widget_attrs h2 !!! c2) !! "class"
      = Some (c +:+ " suit-sortable-stacked")
    ∧ (Forms.widget_attrs h2 !!! w) !! "class" = Some c.
Proof.
  intros Hlist Hclass.
  destruct (stacked_formfield_spec s kwargs h w c Hlist Hclass)
    as (c1 & h1 & Hrun1 & Hnew1 & Hcopy1 & Hold1 & _ & Hmw1 & Hd1).
  assert (w ∈ dom (Forms.widget_attrs h)) as Hw
    by by eapply lookup_total_dicts_Some.
  assert ((Forms.widget_attrs h1 !!! c1) !! "class"
          = Some (c +:+ " suit-sortable-stacked")) as Hc1.
  { by rewrite Hcopy1, lookup_insert_ne, lookup_insert_eq. }
  assert ((Forms.widget_attrs h1 !!! w) !! "class" = Some c) as Hclass1.
  { by rewrite Hold1. }
  assert (list_form_holds h1 w) as Hlist1
    by by eapply list_form_holds_same.
  destruct (stacked_formfield_spec s kwargs' h1 w c Hlist1 Hclass1)
    as (c2 & h2 & Hrun2 & Hnew2 & Hcopy2 & Hold2 & _).
  assert (c1 ∈ dom (Forms.widget_attrs h1)) as Hc1dom
    by by eapply lookup_total_dicts_Some.
  assert (w ∈ dom (Forms.widget_attrs h1)) as Hw1
    by by eapply lookup_total_dicts_Some.
  exists c1, c2, h1, h2. split_and!; try done.
  - intros Heq. by rewrite <- Heq in Hnew2.
  - intros Heq. by rewrite Heq in Hnew1.
  - intros Heq. by rewrite Heq in Hnew2.
  - by rewrite Hold2.
  - by rewrite Hcopy2, Hold1, lookup_insert_ne, lookup_insert_eq.
  - by rewrite Hold2.
Qed.

Lemma stacked_formfield_no_accumulation_witness :
  (list_form_holds Forms.loaded 1%positive
   ∧ (Forms.widget_attrs Forms.loaded !!! 1%positive) !! "class"
     = Some "hide input-mini suit-sortable")
  ∧ ∃ c1 c2 h1 h2,
      StackedFormfield.formfield_for_dbfield "order" "order" ∅ Forms.loaded
      = Return (<["widget" := Forms.KwWidget c1]> ∅, h1)
      ∧ StackedFormfield.formfield_for_dbfield "order" "order" ∅ h1
        = Return (<["widget" := Forms.KwWidget c2]> ∅, h2)
      ∧ c1 ≠ c2 ∧ c1 ≠ 1%positive ∧ c2 ≠ 1%positive
      ∧ (Forms.widget_attrs h2 !!! c1) !! "class"
        = Some ("hide input-mini suit-sortable" +:+ " suit-sortable-stacked")
      ∧ (Forms.widget_attrs h2 !!! c2) !! "class"
        = Some ("hide input-mini suit-sortable" +:+ " suit-sortable-stacked")
      ∧ (Forms.widget_attrs h2 !!! 1%positive) !! "class"
        = Some "hide input-mini suit-sortable".
Proof.
  assert (list_form_holds Forms.loaded 1%positive) as Hlist.
  { exists 1%positive. split; reflexivity. }
  assert ((Forms.widget_attrs Forms.loaded !!! 1%positive) !! "class"
          = Some "hide input-mini suit-sortable") as Hclass
    by reflexivity.
  split; [exact (conj Hlist Hclass)|].
  exact (stacked_formfield_no_accumulation "order" ∅ ∅ Forms.loaded
           1%positive "hide input-mini suit-sortable" Hlist Hclass).
Defined.

(** X22. The tabular inline's [formfield_for_dbfield] hands on, for the
    sortable field, the shared order widget itself and changes nothing:
    it is the very object that [merge_form_meta] puts into the [widgets]
    of a changelist form. *)
Theorem tabular_formfield_shares_widget (s : string) (form : positive)
    (kwargs : gmap string Forms.kwarg) (h : Forms.heap) (w : positive) :
  list_form_holds h w →
  ∃ h' meta d,
    Forms.merge_form_meta s form h = Return h'
    ∧ Forms.form_meta h' !! form = Some meta
    ∧ Forms.meta_widgets h' !! meta = Some d
    ∧ (Forms.dicts h' !!! d) !! s = Some w
    ∧ TabularFormfield.formfield_for_dbfield s s kwargs h
      = Return (<["widget" := Forms.KwWidget w]> kwargs, h)
    ∧ TabularFormfield.formfield_for_dbfield s s kwargs h'
      = Return (<["widget" := Forms.KwWidget w]> kwargs, h').
Proof.
  intros Hlist.
  destruct (merge_form_meta_spec s form h w Hlist)
    as (h' & d & Hrun & Hmeta & Hd & Hs & Hlist' & _).
  exists h', (default Forms.SortableListForm_Meta (Forms.form_meta h !! form)),
    d.
  split_and!; try done.
  - unfold TabularFormfield.formfield_for_dbfield.
    rewrite bool_decide_eq_true_2 by done.
    by rewrite (shared_order_widget_holds h w Hlist).
  - unfold TabularFormfield.formfield_for_dbfield.
    rewrite bool_decide_eq_true_2 by done.
    by rewrite (shared_order_widget_holds h' w Hlist').
Qed.

Lemma tabular_formfield_shares_widget_witness :
  list_form_holds Forms.loaded 1%positive
  ∧ ∃ h' meta d,
      Forms.merge_form_meta "order" 5%positive Forms.loaded = Return h'
      ∧ Forms.form_meta h' !! 5%positive = Some meta
      ∧ Forms.meta_widgets h' !! meta = Some d
      ∧ (Forms.dicts h' !!! d) !! "order" = Some 1%positive
      ∧ TabularFormfield.formfield_for_dbfield "order" "order" ∅ Forms.loaded
        = Return (<["widget" := Forms.KwWidget 1%positive]> ∅, Forms.loaded)
      ∧ TabularFormfield.formfield_for_dbfield "order" "order" ∅ h'
        = Return (<["widget" := Forms.KwWidget 1%positive]> ∅, h').
Proof.
  assert (list_form_holds Forms.loaded 1%positive) as Hlist.
  { exists 1%positive. split; reflexivity. }
  split; [exact Hlist|].
  exact (tabular_formfield_shares_widget "order" 5%positive ∅ Forms.loaded
           1%positive Hlist).
Defined.
